(** * safe_vfork: the vfork/exec protocol of [main.c]

    A shallow embedding of [run_thread] and [main] of [src/main.c], the
    example of how to call [vfork] safely from a multi-threaded program, and
    the properties of its spawn protocol.

    The program is a sequence of calls into the operating system and the C
    library.  Their answers are not decided by the program, so they are
    gathered in a record [os] over which every statement quantifies; the part
    of the kernel and memory state that the program reads or writes is the
    record [state]; every call leaves an [event] in a trace, which is what
    statements such as "exactly once" or "never reaped" are about. *)

From stdpp Require Import base numbers gmap sets list strings.
From Stdlib Require Import ZArith Lia Ascii.

Open Scope Z_scope.

(** ** Data *)

(** [sa_handler] of [struct sigaction]: one of the two distinguished values
    or the address of a handler function. *)
Inductive sighandler : Type :=
  | SIG_DFL
  | SIG_IGN
  | SIG_FN (addr : Z).

#[global] Instance sighandler_eq_dec : EqDecision sighandler.
Proof. solve_decision. Defined.

(** [struct sigaction], with the four fields the source assigns. *)
Record sigaction_t : Type := Sigaction {
  sa_handler : sighandler;
  sa_mask : gset Z;
  sa_flags : Z;
  sa_restorer : Z
}.

#[global] Instance sigaction_t_eq_dec : EqDecision sigaction_t.
Proof. solve_decision. Defined.

(** The [how] argument of [pthread_sigmask]. *)
Inductive sigmask_how : Type := SIG_BLOCK | SIG_UNBLOCK | SIG_SETMASK.

#[global] Instance sigmask_how_eq_dec : EqDecision sigmask_how.
Proof. solve_decision. Defined.

(** Constants of the C library on Linux, the only platform the source
    declares itself valid for. *)
Definition EINVAL : Z := 22.
Definition EXIT_SUCCESS : Z := 0.
Definition EXIT_FAILURE : Z := 1.
Definition NULL : Z := 0.

(** The globals of [main.c]. *)
Definition filename : string := "/bin/ls".
Definition new_argv : list string := ["/bin/ls"].
Definition new_envp : list string := [].

(** Calls, in the order they are made. *)
Inductive event : Type :=
  | Call_sigfillset
  | Call_pthread_sigmask (how : sigmask_how) (set : gset Z)
  | Call_vfork (ret : Z)
  | Call_sigemptyset (ret : Z)
  | Call_sigaction_get (sig : Z) (ret : Z)
  | Call_sigaction_set (sig : Z) (act : sigaction_t) (ret : Z)
  | Call_execve (path : string) (argv envp : list string)
  | Call__exit (code : Z)
  | Call_waitpid (pid options : Z) (ret : Z)
  | Call_perror (msg : string) (err : Z)
  | Call_printf (fmt : string) (arg : Z)
  | Call_fprintf_stderr (fmt : string) (err : Z)
  | Call_exit (code : Z)
  | Call_pthread_create (ret : Z)
  | Call_pthread_join (ret : Z).

#[global] Instance event_eq_dec : EqDecision event.
Proof. solve_decision. Defined.

(** What [vfork] and [waitpid] answer. *)
Inductive vfork_answer : Type :=
  | Forked (pid : positive)
  | ForkError (err : Z).

Inductive wait_answer : Type :=
  | Reaped (raw : Z)
  | WaitError (err : Z).

(** The environment: the platform's [NSIG], and the answer to every call
    whose result the program does not determine.  Each of these calls is made
    at most once per run ([sigaction] at most once per signal number), so one
    answer per call is all a run can observe. *)
Record os : Type := Os {
  NSIG : Z;
  (** the set [sigfillset] stores *)
  full_sigset : gset Z;
  (** signals the kernel never blocks, whatever mask is asked for *)
  unblockable : gset Z;
  sigemptyset_ret : Z;
  (** [sigaction (sig, &act, NULL)]: [None] when it succeeds, the value of
      [errno] when it fails *)
  sigaction_set_err : Z -> option Z;
  (** [execve]: [None] when the image is replaced, else [errno] *)
  execve_err : option Z;
  vfork_ans : vfork_answer;
  waitpid_ans : wait_answer;
  pthread_create_ret : Z;
  pthread_join_ret : Z
}.

(** The state a continuation runs on.  [sigmask] is the signal mask of the
    running thread and [sigtable] the table of signal actions, a signal number
    outside its domain being one that does not exist; both belong to the
    kernel.  [errno] and the global [status] live in memory. *)
Record state : Type := State {
  sigmask : gset Z;
  sigtable : gmap Z sigaction_t;
  errno : Z;
  status : Z;
  trace : list event
}.

Definition log (e : event) (s : state) : state :=
  State (sigmask s) (sigtable s) (errno s) (status s) (trace s ++ [e]).

Definition set_sigmask (m : gset Z) (s : state) : state :=
  State m (sigtable s) (errno s) (status s) (trace s).

Definition set_sigtable (t : gmap Z sigaction_t) (s : state) : state :=
  State (sigmask s) t (errno s) (status s) (trace s).

Definition set_errno (e : Z) (s : state) : state :=
  State (sigmask s) (sigtable s) e (status s) (trace s).

Definition set_status (v : Z) (s : state) : state :=
  State (sigmask s) (sigtable s) (errno s) v (trace s).

(** ** Control: a state monad with termination *)

(** The three calls after which no statement of the caller runs. *)
Inductive halt : Type :=
  | Exit (code : Z)
  | UExit (code : Z)
  | Exec (path : string) (argv envp : list string).

#[global] Instance halt_eq_dec : EqDecision halt.
Proof. solve_decision. Defined.

Inductive result (A : Type) : Type :=
  | Ok (a : A)
  | Halt (h : halt).

Arguments Ok {A} a.
Arguments Halt {A} h.

Definition M (A : Type) : Type := state -> result A * state.

#[global] Instance M_ret : MRet M := fun A a s => (Ok a, s).

#[global] Instance M_bind : MBind M := fun A B f m s =>
  match m s with
  | (Ok a, s') => f a s'
  | (Halt h, s') => (Halt h, s')
  end.

Definition emit (e : event) : M unit := fun s => (Ok tt, log e s).

(** ** The calls *)

Section Calls.

Variable sys : os.

Definition sigfillset : M (gset Z) :=
  emit Call_sigfillset ;; mret (full_sigset sys).

(** [sigemptyset (&set)]: the return value and the content of [set]. *)
Definition sigemptyset : M (Z * gset Z) :=
  emit (Call_sigemptyset (sigemptyset_ret sys)) ;;
  mret (sigemptyset_ret sys, ∅).

Definition apply_how (how : sigmask_how) (set cur : gset Z) : gset Z :=
  match how with
  | SIG_BLOCK => cur ∪ set
  | SIG_UNBLOCK => cur ∖ set
  | SIG_SETMASK => set
  end.

(** [pthread_sigmask (how, &set, &oldset)]; the value is the previous mask,
    which a call with a null [oldset] drops.  With a valid [how] and readable
    [set] the call cannot fail. *)
Definition pthread_sigmask (how : sigmask_how) (set : gset Z) : M (gset Z) :=
  fun s =>
    (Ok (sigmask s),
     set_sigmask (apply_how how set (sigmask s) ∖ unblockable sys)
       (log (Call_pthread_sigmask how set) s)).

(** [sigaction (sig, NULL, &oldsa)]: the second component is the content of
    [oldsa] after the call, left as it was when the call fails.  With a
    writable [oldsa] the call fails in one case only, [EINVAL]: [sig] is not
    a signal. *)
Definition sigaction_get (sig : Z) (oldsa : sigaction_t) : M (Z * sigaction_t) :=
  fun s =>
    match sigtable s !! sig with
    | Some sa => (Ok (0, sa), log (Call_sigaction_get sig 0) s)
    | None => (Ok (-1, oldsa), set_errno EINVAL (log (Call_sigaction_get sig (-1)) s))
    end.

(** [sigaction (sig, &act, NULL)]. *)
Definition sigaction_set (sig : Z) (act : sigaction_t) : M Z :=
  fun s =>
    match sigaction_set_err sys sig with
    | None =>
        (Ok 0, set_sigtable (<[sig := act]> (sigtable s))
                 (log (Call_sigaction_set sig act 0) s))
    | Some e =>
        (Ok (-1), set_errno e (log (Call_sigaction_set sig act (-1)) s))
    end.

Definition get_errno : M Z := fun s => (Ok (errno s), s).
Definition get_status : M Z := fun s => (Ok (status s), s).

(** [execve] returns only when it fails. *)
Definition execve (path : string) (argv envp : list string) : M Z :=
  fun s =>
    match execve_err sys with
    | None => (Halt (Exec path argv envp), log (Call_execve path argv envp) s)
    | Some e => (Ok (-1), set_errno e (log (Call_execve path argv envp) s))
    end.

Definition _exit {A : Type} (code : Z) : M A :=
  fun s => (Halt (UExit code), log (Call__exit code) s).

Definition exit {A : Type} (code : Z) : M A :=
  fun s => (Halt (Exit code), log (Call_exit code) s).

(** [waitpid (pid, &status, options)] *)
Definition waitpid (pid options : Z) : M Z :=
  fun s =>
    match waitpid_ans sys with
    | Reaped raw => (Ok pid, set_status raw (log (Call_waitpid pid options pid) s))
    | WaitError e => (Ok (-1), set_errno e (log (Call_waitpid pid options (-1)) s))
    end.

Definition perror (msg : string) : M unit :=
  fun s => (Ok tt, log (Call_perror msg (errno s)) s).

Definition printf (fmt : string) (arg : Z) : M unit := emit (Call_printf fmt arg).

(** [fprintf (stderr, fmt, strerror (err))] *)
Definition fprintf_stderr (fmt : string) (err : Z) : M unit :=
  emit (Call_fprintf_stderr fmt err).

Definition pthread_create : M Z :=
  emit (Call_pthread_create (pthread_create_ret sys)) ;;
  mret (pthread_create_ret sys).

Definition pthread_join : M Z :=
  emit (Call_pthread_join (pthread_join_ret sys)) ;;
  mret (pthread_join_ret sys).

End Calls.

(** ** Wait status *)

(** The macros of [<sys/wait.h>] that [run_thread] applies to [status] are
    not part of the repository.  These are the definitions of the GNU C
    Library ([bits/waitstatus.h]) on an [int], with the conversion to
    [signed char] written out. *)
Definition to_signed_char (z : Z) : Z :=
  let m := z mod 256 in if m <? 128 then m else m - 256.

Definition WEXITSTATUS (st : Z) : Z := Z.shiftr (Z.land st 65280) 8.
Definition WTERMSIG (st : Z) : Z := Z.land st 127.
Definition WIFEXITED (st : Z) : bool := WTERMSIG st =? 0.
Definition WIFSIGNALED (st : Z) : bool :=
  0 <? Z.shiftr (to_signed_char (Z.land st 127 + 1)) 1.

(** The value the kernel stores for a child that called [_exit (code)], and
    for one killed by signal [sig], with or without a core dump. *)
Definition W_EXITCODE (code sig : Z) : Z := Z.lor (Z.shiftl code 8) sig.
Definition W_KILLED (sig : Z) (core : bool) : Z :=
  Z.lor sig (if core then 128 else 0).

(** ** [run_thread] *)

Definition newline : string := String "010"%char EmptyString.
Definition fmt_exited : string := "Helper: Exited, status=%d" +:+ newline.
Definition fmt_killed : string := "Helper: Killed by signal %d" +:+ newline.
Definition fmt_create : string := "pthread_create: %s" +:+ newline.
Definition fmt_join : string := "pthread_join: %s" +:+ newline.

Definition is_custom (h : sighandler) : bool :=
  negb (bool_decide (h = SIG_IGN)) && negb (bool_decide (h = SIG_DFL)).

Arguments WIFEXITED : simpl never.
Arguments WIFSIGNALED : simpl never.
Arguments WEXITSTATUS : simpl never.
Arguments WTERMSIG : simpl never.
Arguments fmt_exited : simpl never.
Arguments fmt_killed : simpl never.
Arguments fmt_create : simpl never.
Arguments fmt_join : simpl never.

Section Program.

Variable sys : os.

(** Lines 81-105: up to the call of [vfork].  The value is
    [old_signal_mask]. *)
Definition run_thread_block : M (gset Z) :=
  signal_mask ← sigfillset sys;
  pthread_sigmask sys SIG_BLOCK signal_mask.

(** Lines 140-160: the body of the [for] loop at [i], then the remaining
    iterations.  [oldsa] is the local the queries write to. *)
Fixpoint reset_loop (sigs : list Z) (newsa oldsa : sigaction_t) : M unit :=
  match sigs with
  | [] => mret tt
  | i :: rest =>
      '(ret, oldsa) ← sigaction_get i oldsa;
      (if (ret =? 0) && is_custom (sa_handler oldsa)
       then
         ret ← sigaction_set sys i newsa;
         e ← get_errno;
         if negb (ret =? 0) && negb (e =? EINVAL) then _exit 2 else mret tt
       else mret tt) ;;
      reset_loop rest newsa oldsa
  end.

(** Lines 127-177: the block run when [vfork] returned 0. *)
Definition run_thread_child (old_signal_mask : gset Z) (oldsa : sigaction_t)
  : M unit :=
  '(ret, empty_mask) ← sigemptyset sys;
  (if negb (ret =? 0) then _exit 1 else mret tt) ;;
  let newsa := Sigaction SIG_DFL empty_mask 0 0 in
  reset_loop (seqZ 0 (NSIG sys)) newsa oldsa ;;
  pthread_sigmask sys SIG_SETMASK old_signal_mask ;;
  execve sys filename new_argv new_envp ;;
  _exit 3.

(** Lines 125-215: [run_thread] from the return of [vfork] with value
    [child].  [oldsa] is what the uninitialised local of that name holds. *)
Definition run_thread_resume (child : Z) (old_signal_mask : gset Z)
    (oldsa : sigaction_t) : M Z :=
  (if child =? 0 then run_thread_child old_signal_mask oldsa else mret tt) ;;
  if child =? -1
  then
    pthread_sigmask sys SIG_SETMASK old_signal_mask ;;
    perror "vfork" ;;
    exit EXIT_FAILURE
  else
    pthread_sigmask sys SIG_SETMASK old_signal_mask ;;
    waited ← waitpid sys child 0;
    (if waited =? -1 then perror "wait" ;; exit EXIT_FAILURE else mret tt) ;;
    st ← get_status;
    (if WIFEXITED st then printf fmt_exited (WEXITSTATUS st)
     else if WIFSIGNALED st then printf fmt_killed (WTERMSIG st)
     else mret tt) ;;
    mret NULL.

(** *** [vfork]: one call, two continuations *)

(** The state in which [vfork] is called. *)
Definition blocked (s : state) : state :=
  set_sigmask ((sigmask s ∪ full_sigset sys) ∖ unblockable sys)
    (log (Call_pthread_sigmask SIG_BLOCK (full_sigset sys))
       (log Call_sigfillset s)).

(** The child of [vfork] owns a copy of the caller's signal mask and of the
    table of signal actions, and runs in the caller's memory. *)
Definition child_start (s : state) : state :=
  State (sigmask s) (sigtable s) (errno s) (status s) [].

(** The caller is resumed with its own mask and table, in the memory the
    child left. *)
Definition parent_resume (s c : state) : state :=
  State (sigmask s) (sigtable s) (errno c) (status c) (trace s).

(** One pass through [run_thread], the [spawn_and_wait] of the
    specification: what happened in the calling thread, and in the child when
    there was one. *)
Record run : Type := Run {
  parent_result : result Z;
  parent_final : state;
  child_run : option (result Z * state)
}.

Definition spawn_and_wait (oldsa : sigaction_t) (s : state) : run :=
  match run_thread_block s with
  | (Halt h, s1) => Run (Halt h) s1 None
  | (Ok old_signal_mask, s1) =>
      match vfork_ans sys with
      | ForkError e =>
          let s2 := set_errno e (log (Call_vfork (-1)) s1) in
          let '(r, s3) := run_thread_resume (-1) old_signal_mask oldsa s2 in
          Run r s3 None
      | Forked pid =>
          let '(rc, sc) :=
            run_thread_resume 0 old_signal_mask oldsa (child_start s1) in
          let s2 := parent_resume (log (Call_vfork (Z.pos pid)) s1) sc in
          let '(r, s3) := run_thread_resume (Z.pos pid) old_signal_mask oldsa s2 in
          Run r s3 (Some (rc, sc))
      end
  end.

(** [run_thread] as the process that called it sees it. *)
Definition run_thread (oldsa : sigaction_t) : M Z :=
  fun s => let r := spawn_and_wait oldsa s in (parent_result r, parent_final r).

(** ** [main] *)

(** [pthread_create] starts [run_thread] in a new thread, which inherits the
    signal mask of its creator.  [main] makes no call between
    [pthread_create] and [pthread_join], and [pthread_join] answers once the
    thread has returned: the calls of the thread come between the two.  When
    the thread ends the process with [exit], [pthread_join] never answers. *)
Definition main (oldsa : sigaction_t) : M Z :=
  ret ← pthread_create sys;
  (if negb (ret =? 0)
   then fprintf_stderr fmt_create ret ;; exit EXIT_FAILURE
   else mret tt) ;;
  run_thread oldsa ;;
  ret ← pthread_join sys;
  (if negb (ret =? 0)
   then fprintf_stderr fmt_join ret ;; exit EXIT_FAILURE
   else mret tt) ;;
  exit EXIT_SUCCESS.

(** The three ways through the child continuation. *)
Inductive child_path (old : gset Z) (oldsa : sigaction_t) (s : state)
  : result Z -> state -> Prop :=
  | path_setup_failed :
      sigemptyset_ret sys <> 0 ->
      child_path old oldsa s (Halt (UExit 1))
        (log (Call__exit 1) (log (Call_sigemptyset (sigemptyset_ret sys)) s))
  | path_reset_failed s1 :
      sigemptyset_ret sys = 0 ->
      reset_loop (seqZ 0 (NSIG sys)) (Sigaction SIG_DFL ∅ 0 0) oldsa
        (log (Call_sigemptyset 0) s) = (Halt (UExit 2), s1) ->
      child_path old oldsa s (Halt (UExit 2)) s1
  | path_reset_done s1 :
      sigemptyset_ret sys = 0 ->
      reset_loop (seqZ 0 (NSIG sys)) (Sigaction SIG_DFL ∅ 0 0) oldsa
        (log (Call_sigemptyset 0) s) = (Ok tt, s1) ->
      child_path old oldsa s
        (match execve_err sys with
         | None => Halt (Exec filename new_argv new_envp)
         | Some _ => Halt (UExit 3)
         end)
        (let s3 := log (Call_execve filename new_argv new_envp)
                     (set_sigmask (old ∖ unblockable sys)
                        (log (Call_pthread_sigmask SIG_SETMASK old) s1)) in
         match execve_err sys with
         | None => s3
         | Some e => log (Call__exit 3) (set_errno e s3)
         end).

End Program.

(** ** Reading a trace *)

Definition is_sigaction_call (e : event) : bool :=
  match e with
  | Call_sigaction_get _ _ | Call_sigaction_set _ _ _ => true
  | _ => false
  end.

(** The signal numbers whose action was queried, in the order of the
    queries. *)
Definition query_of (e : event) : option Z :=
  match e with
  | Call_sigaction_get sig _ => Some sig
  | _ => None
  end.

Definition queried (evs : list event) : list Z := omap query_of evs.

(** Calls of [pthread_sigmask] with [SIG_SETMASK]. *)
Definition is_setmask (e : event) : bool :=
  match e with
  | Call_pthread_sigmask SIG_SETMASK _ => true
  | _ => false
  end.

Definition is_waitpid (e : event) : bool :=
  match e with
  | Call_waitpid _ _ _ => true
  | _ => false
  end.

(** The two calls of [main] that manage the thread. *)
Definition is_thread_call (e : event) : bool :=
  match e with
  | Call_pthread_create _ | Call_pthread_join _ => true
  | _ => false
  end.

(** The calls that only the code after the child block makes. *)
Definition parent_side (e : event) : bool :=
  match e with
  | Call_waitpid _ _ _ | Call_perror _ _ | Call_printf _ _ | Call_exit _ => true
  | _ => false
  end.

(** The [ExitStatus] of the specification, and the one a printed line
    reports. *)
Inductive ExitStatus : Type :=
  | Exited (code : Z)
  | Signaled (sig : Z).

Definition report_of (e : event) : option ExitStatus :=
  match e with
  | Call_printf fmt arg =>
      if bool_decide (fmt = fmt_exited) then Some (Exited arg)
      else if bool_decide (fmt = fmt_killed) then Some (Signaled arg)
      else None
  | _ => None
  end.

Definition reports (evs : list event) : list ExitStatus := omap report_of evs.

(** The signal numbers whose action the trace tries to set, in order. *)
Definition reset_of (e : event) : option Z :=
  match e with
  | Call_sigaction_set sig _ _ => Some sig
  | _ => None
  end.

Definition resets (evs : list event) : list Z := omap reset_of evs.

(** Calls of [pthread_sigmask], whatever their [how]. *)
Definition is_pthread_sigmask (e : event) : bool :=
  match e with
  | Call_pthread_sigmask _ _ => true
  | _ => false
  end.

(** The calls that only the child block makes. *)
Definition child_side (e : event) : bool :=
  match e with
  | Call_sigemptyset _ | Call_sigaction_get _ _ | Call_sigaction_set _ _ _
  | Call_execve _ _ _ | Call__exit _ => true
  | _ => false
  end.

(** Signal [i] has a handler in table [t] and the system refuses to reset
    it with an error other than [EINVAL]: the condition of [_exit (2)]. *)
Definition fatal_reset (sys : os) (t : gmap Z sigaction_t) (i : Z) : Prop :=
  exists sa e, t !! i = Some sa /\ is_custom (sa_handler sa) = true /\
    sigaction_set_err sys i = Some e /\ e <> EINVAL.

(** ** A concrete system *)

(** Linux on x86-64: 64 signals, [SIGKILL] (9) and [SIGSTOP] (19) neither
    blockable nor changeable, signal number 0 not a signal. *)
Definition SIGINT : Z := 2.
Definition SIGKILL : Z := 9.
Definition SIGPIPE : Z := 13.
Definition SIGTERM : Z := 15.
Definition SIGSTOP : Z := 19.

Definition linux_set_err (sig : Z) : option Z :=
  if bool_decide (sig = SIGKILL \/ sig = SIGSTOP) then Some EINVAL else None.

Definition linux (v : vfork_answer) (w : wait_answer) (join : Z) : os :=
  Os 65 (list_to_set (seqZ 1 64)) {[SIGKILL; SIGSTOP]} 0 linux_set_err
     None v w 0 join.

(** The system [sys], except that resetting the action of [sig] fails with
    error [e]. *)
Definition faulty (sys : os) (sig e : Z) : os :=
  Os (NSIG sys) (full_sigset sys) (unblockable sys) (sigemptyset_ret sys)
     (fun i => if bool_decide (i = sig) then Some e else sigaction_set_err sys i)
     (execve_err sys) (vfork_ans sys) (waitpid_ans sys)
     (pthread_create_ret sys) (pthread_join_ret sys).

Definition EFAULT : Z := 14.

Definition sa_default : sigaction_t := Sigaction SIG_DFL ∅ 0 0.

(** A process that handles [SIGINT] and [SIGTERM], ignores [SIGPIPE], and
    runs with [SIGTERM] blocked. *)
Definition busy_table : gmap Z sigaction_t :=
  <[SIGINT := Sigaction (SIG_FN 4198400) ∅ 0 0]>
    (<[SIGTERM := Sigaction (SIG_FN 4198464) {[SIGINT]} 0 0]>
       (<[SIGPIPE := Sigaction SIG_IGN ∅ 0 0]>
          (list_to_map ((fun i => (i, sa_default)) <$> seqZ 1 64)))).

Definition busy : state := State {[SIGTERM]} busy_table 0 0 [].

(** * Properties *)

(** ** Running the definitions *)

Section Unfold.

Variable sys : os.

(** One iteration of the reset loop, by cases on the answers to its one or
    two calls of [sigaction]. *)
Lemma reset_loop_cons (i : Z) (rest : list Z) (newsa oldsa : sigaction_t) (s : state) :
  reset_loop sys (i :: rest) newsa oldsa s =
  match sigtable s !! i with
  | None =>
      reset_loop sys rest newsa oldsa
        (set_errno EINVAL (log (Call_sigaction_get i (-1)) s))
  | Some sa =>
      let s1 := log (Call_sigaction_get i 0) s in
      if is_custom (sa_handler sa)
      then
        match sigaction_set_err sys i with
        | None =>
            reset_loop sys rest newsa sa
              (set_sigtable (<[i := newsa]> (sigtable s))
                 (log (Call_sigaction_set i newsa 0) s1))
        | Some e =>
            let s2 := set_errno e (log (Call_sigaction_set i newsa (-1)) s1) in
            if e =? EINVAL
            then reset_loop sys rest newsa sa s2
            else (Halt (UExit 2), log (Call__exit 2) s2)
        end
      else reset_loop sys rest newsa sa s1
  end.
Proof.
  cbn [reset_loop]. unfold mbind, M_bind, sigaction_get.
  destruct (sigtable s !! i) as [sa|] eqn:Hi; cbn.
  - destruct (is_custom (sa_handler sa)); cbn; [|reflexivity].
    unfold sigaction_set. destruct (sigaction_set_err sys i) as [e|]; cbn.
    + destruct (e =? EINVAL); cbn; reflexivity.
    + reflexivity.
  - reflexivity.
Qed.

(** The child block: the call of [sigemptyset], the loop, and what follows
    it. *)
Lemma run_thread_child_eq (old : gset Z) (oldsa : sigaction_t) (s : state) :
  run_thread_child sys old oldsa s =
  let s0 := log (Call_sigemptyset (sigemptyset_ret sys)) s in
  if sigemptyset_ret sys =? 0
  then
    match reset_loop sys (seqZ 0 (NSIG sys)) (Sigaction SIG_DFL ∅ 0 0) oldsa s0 with
    | (Halt h, s1) => (Halt h, s1)
    | (Ok _, s1) =>
        let s2 := set_sigmask (old ∖ unblockable sys)
                    (log (Call_pthread_sigmask SIG_SETMASK old) s1) in
        let s3 := log (Call_execve filename new_argv new_envp) s2 in
        match execve_err sys with
        | None => (Halt (Exec filename new_argv new_envp), s3)
        | Some e => (Halt (UExit 3), log (Call__exit 3) (set_errno e s3))
        end
    end
  else (Halt (UExit 1), log (Call__exit 1) s0).
Proof.
  cbv [run_thread_child mbind M_bind sigemptyset emit mret M_ret].
  destruct (sigemptyset_ret sys =? 0); cbn; [|reflexivity].
  destruct (reset_loop _ _ _ _ _) as [[[]|h] s1]; [|reflexivity].
  cbv [execve pthread_sigmask _exit]. destruct (execve_err sys); reflexivity.
Qed.

(** The calling thread, resumed with the identifier of the child. *)
Lemma run_thread_resume_parent (pid : positive) (old : gset Z)
    (oldsa : sigaction_t) (s : state) :
  run_thread_resume sys (Z.pos pid) old oldsa s =
  let s1 := set_sigmask (old ∖ unblockable sys)
              (log (Call_pthread_sigmask SIG_SETMASK old) s) in
  match waitpid_ans sys with
  | WaitError e =>
      (Halt (Exit EXIT_FAILURE),
       log (Call_exit EXIT_FAILURE)
         (log (Call_perror "wait" e)
            (set_errno e (log (Call_waitpid (Z.pos pid) 0 (-1)) s1))))
  | Reaped raw =>
      let s2 := set_status raw (log (Call_waitpid (Z.pos pid) 0 (Z.pos pid)) s1) in
      (Ok NULL,
       if WIFEXITED raw then log (Call_printf fmt_exited (WEXITSTATUS raw)) s2
       else if WIFSIGNALED raw then log (Call_printf fmt_killed (WTERMSIG raw)) s2
       else s2)
  end.
Proof.
  cbv [run_thread_resume mbind M_bind waitpid mret M_ret pthread_sigmask
       get_status perror exit printf emit].
  cbn. destruct (waitpid_ans sys) as [raw|e]; cbn; [|reflexivity].
  destruct (WIFEXITED raw); [reflexivity|].
  destruct (WIFSIGNALED raw); reflexivity.
Qed.

(** The calling thread, resumed with the error indicator. *)
Lemma run_thread_resume_error (old : gset Z) (oldsa : sigaction_t) (s : state) :
  run_thread_resume sys (-1) old oldsa s =
  (Halt (Exit EXIT_FAILURE),
   log (Call_exit EXIT_FAILURE)
     (log (Call_perror "vfork" (errno s))
        (set_sigmask (old ∖ unblockable sys)
           (log (Call_pthread_sigmask SIG_SETMASK old) s)))).
Proof. reflexivity. Qed.

(** The child continuation stops where the child block stops. *)
Lemma run_thread_resume_child (old : gset Z) (oldsa : sigaction_t)
    (s s1 : state) (h : halt) :
  run_thread_child sys old oldsa s = (Halt h, s1) ->
  run_thread_resume sys 0 old oldsa s = (Halt h, s1).
Proof.
  intros Hc. cbv [run_thread_resume mbind M_bind]. cbn. rewrite Hc. reflexivity.
Qed.

End Unfold.

(** ** The reset loop *)

(** The five ways through one iteration at [i] from state [s]: the query
    fails; the action is not a handler; it is one and is reset; the reset
    fails with [EINVAL]; the reset fails with another error. *)
Ltac loop_step H i s :=
  rewrite reset_loop_cons in H; cbv zeta in H;
  let sa := fresh "sa" in
  let e := fresh "e" in
  let Hlk := fresh "Hlk" in
  let Hcu := fresh "Hcu" in
  let Hse := fresh "Hse" in
  let Hei := fresh "Hei" in
  destruct (sigtable s !! i) as [sa|] eqn:Hlk;
  [ destruct (is_custom (sa_handler sa)) eqn:Hcu;
    [ destruct (sigaction_set_err _ i) as [e|] eqn:Hse;
      [ destruct (e =? EINVAL) eqn:Hei | ]
    | ]
  | ].

Section Loop.

Variable sys : os.

(** The loop touches neither the signal mask nor [status]; it makes calls of
    [sigaction] only, queries the signal numbers it is given in their order,
    and stops early in one way only: [_exit (2)]. *)
Lemma reset_loop_frame (sigs : list Z) :
  forall (newsa oldsa : sigaction_t) (s s' : state) (r : result unit),
  reset_loop sys sigs newsa oldsa s = (r, s') ->
  sigmask s' = sigmask s /\ status s' = status s /\
  exists evs, trace s' = trace s ++ evs /\
    match r with
    | Ok _ => Forall is_sigaction_call evs /\ queried evs = sigs
    | Halt h =>
        h = UExit 2 /\
        exists evs0, evs = evs0 ++ [Call__exit 2] /\
          Forall is_sigaction_call evs0 /\ queried evs0 `prefix_of` sigs
    end.
Proof.
  induction sigs as [|i rest IH]; intros newsa oldsa s s' r H.
  - cbn in H. injection H as <- <-. repeat split.
    exists []. rewrite app_nil_r. repeat split. constructor.
  - loop_step H i s.
    2: { injection H as <- <-. cbn. repeat split.
         eexists. split; [rewrite <- !app_assoc; reflexivity|].
         split; [reflexivity|].
         exists [Call_sigaction_get i 0; Call_sigaction_set i newsa (-1)].
         split; [reflexivity|]. split; [repeat constructor|].
         cbn. apply prefix_cons, prefix_nil. }
    all: apply IH in H as (Hm & Hst & evs & Htr & Hr); cbn in Hm, Hst, Htr.
    all: split; [exact Hm|]; split; [exact Hst|].
    all: match type of Htr with
         | _ = ((_ ++ ?pre1) ++ ?pre2) ++ ?evs => exists ((pre1 ++ pre2) ++ evs)
         | _ = (_ ++ ?pre1) ++ ?evs => exists (pre1 ++ evs)
         end.
    all: split; [rewrite Htr, <- ?app_assoc; reflexivity|].
    all: destruct r as [[]|h];
      [ destruct Hr as [Hf Hq]; split;
        [ apply Forall_app; split; [repeat constructor | exact Hf]
        | unfold queried in *; rewrite omap_app, Hq; reflexivity ]
      | destruct Hr as (-> & evs0 & -> & Hf & Hq); split; [reflexivity|];
        eexists (_ ++ evs0); split; [rewrite app_assoc; reflexivity|]; split;
        [ apply Forall_app; split; [repeat constructor | exact Hf]
        | unfold queried in *; rewrite omap_app; cbn; apply prefix_cons;
          exact Hq ] ].
Qed.

(** What a completed loop has done to the table of signal actions, for a
    template [newsa] that is not itself a handler. *)
Lemma reset_loop_table (sigs : list Z) :
  forall (newsa oldsa : sigaction_t) (s s' : state),
  is_custom (sa_handler newsa) = false ->
  reset_loop sys sigs newsa oldsa s = (Ok tt, s') ->
  forall i : Z,
    (sigtable s !! i = None -> sigtable s' !! i = None) /\
    (forall sa, sigtable s !! i = Some sa -> is_custom (sa_handler sa) = false ->
       sigtable s' !! i = Some sa) /\
    (i ∉ sigs -> sigtable s' !! i = sigtable s !! i) /\
    (forall sa, i ∈ sigs -> sigtable s !! i = Some sa ->
       is_custom (sa_handler sa) = true ->
       (sigaction_set_err sys i = None /\ sigtable s' !! i = Some newsa) \/
       (sigaction_set_err sys i = Some EINVAL /\ sigtable s' !! i = Some sa)).
Proof.
  induction sigs as [|j rest IH]; intros newsa oldsa s s' Hnew H i.
  - cbn in H. injection H as <-. repeat split; auto.
    intros sa Hin. apply elem_of_nil in Hin. contradiction.
  - loop_step H j s; try discriminate.
    all: specialize (IH _ _ _ _ Hnew H i) as (Hnone & Hkeep & Hout & Hin);
      cbn in Hnone, Hkeep, Hout, Hin.
    + (* the reset failed with EINVAL *)
      apply Z.eqb_eq in Hei as ->.
      repeat split; auto.
      * intros Hni. apply not_elem_of_cons in Hni as [_ Hni]. auto.
      * intros sa' Hi Hlk' Hcu'. destruct (decide (i ∈ rest)) as [Hr|Hr]; [eauto|].
        apply elem_of_cons in Hi as [->|Hi]; [|contradiction].
        right. split; [assumption|]. rewrite Hout; assumption.
    + (* the action was reset *)
      destruct (decide (i = j)) as [->|Hne].
      * assert (Hj : sigtable s' !! j = Some newsa).
        { apply Hkeep; [apply lookup_insert_eq | assumption]. }
        repeat split.
        -- congruence.
        -- congruence.
        -- intros Hni. apply not_elem_of_cons in Hni as [Hni _]. contradiction.
        -- intros sa' _ _ _. left. split; assumption.
      * rewrite lookup_insert_ne in Hnone, Hkeep, Hout, Hin by congruence.
        repeat split; auto.
        -- intros Hni. apply not_elem_of_cons in Hni as [_ Hni]. auto.
        -- intros sa' Hi. apply elem_of_cons in Hi as [->|Hi]; [contradiction|].
           auto.
    + (* not a handler *)
      repeat split; auto.
      * intros Hni. apply not_elem_of_cons in Hni as [_ Hni]. auto.
      * intros sa' Hi Hlk' Hcu'. apply elem_of_cons in Hi as [->|Hi]; [|eauto].
        congruence.
    + (* the query failed *)
      repeat split; auto.
      * intros Hni. apply not_elem_of_cons in Hni as [_ Hni]. auto.
      * intros sa' Hi Hlk' Hcu'. apply elem_of_cons in Hi as [->|Hi]; [|eauto].
        congruence.
Qed.

(** The loop stops with [_exit (2)] only at a handler whose reset failed with
    an error other than [EINVAL]. *)
Lemma reset_loop_fatal (sigs : list Z) :
  forall (newsa oldsa : sigaction_t) (s s' : state) (h : halt),
  is_custom (sa_handler newsa) = false ->
  reset_loop sys sigs newsa oldsa s = (Halt h, s') ->
  exists i sa e, i ∈ sigs /\ sigtable s !! i = Some sa /\
    is_custom (sa_handler sa) = true /\
    sigaction_set_err sys i = Some e /\ e <> EINVAL.
Proof.
  induction sigs as [|j rest IH]; intros newsa oldsa s s' h Hnew H.
  - discriminate.
  - loop_step H j s.
    2: { exists j, sa, e. apply Z.eqb_neq in Hei.
         repeat split; auto. apply elem_of_cons; auto. }
    all: apply IH in H as (i & sa' & e' & Hi & Hlk' & Hcu' & Hse' & Hne);
      [|assumption]; cbn in Hlk'.
    2: { destruct (decide (i = j)) as [->|Hij].
         - rewrite lookup_insert_eq in Hlk'. congruence.
         - rewrite lookup_insert_ne in Hlk' by congruence.
           exists i, sa', e'. repeat split; auto. apply elem_of_cons; auto. }
    all: exists i, sa', e'; repeat split; auto; apply elem_of_cons; auto.
Qed.

End Loop.

(** ** The two continuations *)

Section Continuations.

Variable sys : os.

Lemma run_thread_resume_child_path (old : gset Z) (oldsa : sigaction_t)
    (s sc : state) (rc : result Z) :
  run_thread_resume sys 0 old oldsa s = (rc, sc) ->
  child_path sys old oldsa s rc sc.
Proof.
  intros H.
  pose proof (run_thread_child_eq sys old oldsa s) as Hc. cbv zeta in Hc.
  destruct (sigemptyset_ret sys =? 0) eqn:He.
  - apply Z.eqb_eq in He. rewrite He in Hc.
    destruct (reset_loop _ _ _ _ _) as [[[]|h] s1] eqn:Hl.
    + destruct (execve_err sys) as [e|] eqn:Hx;
        rewrite (run_thread_resume_child _ _ _ _ _ _ Hc) in H;
        injection H as <- <-;
        pose proof (path_reset_done sys old oldsa s s1 He Hl) as P;
        rewrite Hx in P; exact P.
    + rewrite (run_thread_resume_child _ _ _ _ _ _ Hc) in H.
      injection H as <- <-.
      destruct (reset_loop_frame _ _ _ _ _ _ _ Hl) as (_ & _ & _ & _ & -> & _).
      apply path_reset_failed; assumption.
  - apply Z.eqb_neq in He.
    rewrite (run_thread_resume_child _ _ _ _ _ _ Hc) in H.
    injection H as <- <-. apply path_setup_failed; assumption.
Qed.

Lemma run_thread_block_eq (s : state) :
  run_thread_block sys s = (Ok (sigmask s), blocked sys s).
Proof. reflexivity. Qed.

Lemma spawn_and_wait_error (oldsa : sigaction_t) (s : state) (e : Z) :
  vfork_ans sys = ForkError e ->
  spawn_and_wait sys oldsa s =
  Run (Halt (Exit EXIT_FAILURE))
    (State (sigmask s ∖ unblockable sys) (sigtable s) e (status s)
       (trace s ++
        [Call_sigfillset;
         Call_pthread_sigmask SIG_BLOCK (full_sigset sys);
         Call_vfork (-1);
         Call_pthread_sigmask SIG_SETMASK (sigmask s);
         Call_perror "vfork" e;
         Call_exit EXIT_FAILURE]))
    None.
Proof.
  intros Hv. unfold spawn_and_wait. rewrite run_thread_block_eq, Hv.
  rewrite run_thread_resume_error.
  unfold blocked, log, set_sigmask, set_errno. cbn.
  rewrite <- !app_assoc. reflexivity.
Qed.

Lemma spawn_and_wait_forked (oldsa : sigaction_t) (s : state) (pid : positive) :
  vfork_ans sys = Forked pid ->
  exists rc sc,
    child_path sys (sigmask s) oldsa (child_start (blocked sys s)) rc sc /\
    spawn_and_wait sys oldsa s =
    let '(r, s3) :=
      run_thread_resume sys (Z.pos pid) (sigmask s) oldsa
        (parent_resume (log (Call_vfork (Z.pos pid)) (blocked sys s)) sc) in
    Run r s3 (Some (rc, sc)).
Proof.
  intros Hv. unfold spawn_and_wait. rewrite run_thread_block_eq, Hv.
  destruct (run_thread_resume sys 0 _ _ _) as [rc sc] eqn:Hc.
  exists rc, sc. split; [|reflexivity].
  apply run_thread_resume_child_path. exact Hc.
Qed.

End Continuations.

(** ** The calling thread after a successful [vfork] *)

Section Spawner.

Variable sys : os.

(** The calling thread after [vfork] returned [pid]: its mask, and its calls
    by what [waitpid] answers. *)
Lemma spawn_and_wait_parent (oldsa : sigaction_t) (s : state) (pid : positive) :
  vfork_ans sys = Forked pid ->
  let r := spawn_and_wait sys oldsa s in
  sigmask (parent_final r) = sigmask s ∖ unblockable sys /\
  sigtable (parent_final r) = sigtable s /\
  match waitpid_ans sys with
  | WaitError e =>
      parent_result r = Halt (Exit EXIT_FAILURE) /\
      trace (parent_final r) =
      trace s ++
      [Call_sigfillset;
       Call_pthread_sigmask SIG_BLOCK (full_sigset sys);
       Call_vfork (Z.pos pid);
       Call_pthread_sigmask SIG_SETMASK (sigmask s);
       Call_waitpid (Z.pos pid) 0 (-1);
       Call_perror "wait" e;
       Call_exit EXIT_FAILURE]
  | Reaped raw =>
      parent_result r = Ok NULL /\
      status (parent_final r) = raw /\
      trace (parent_final r) =
      trace s ++
      [Call_sigfillset;
       Call_pthread_sigmask SIG_BLOCK (full_sigset sys);
       Call_vfork (Z.pos pid);
       Call_pthread_sigmask SIG_SETMASK (sigmask s);
       Call_waitpid (Z.pos pid) 0 (Z.pos pid)] ++
      (if WIFEXITED raw then [Call_printf fmt_exited (WEXITSTATUS raw)]
       else if WIFSIGNALED raw then [Call_printf fmt_killed (WTERMSIG raw)]
       else [])
  end.
Proof.
  intros Hv r. subst r.
  destruct (spawn_and_wait_forked sys oldsa s pid Hv) as (rc & sc & _ & ->).
  rewrite run_thread_resume_parent. cbv zeta.
  destruct (waitpid_ans sys) as [raw|e]; cbn.
  - destruct (WIFEXITED raw); [|destruct (WIFSIGNALED raw)]; cbn;
      repeat split; rewrite <- ?app_assoc; reflexivity.
  - repeat split. rewrite <- !app_assoc. reflexivity.
Qed.

(** [main], by cases on what its two calls and the thread answer. *)
Lemma main_eq (oldsa : sigaction_t) (s : state) :
  main sys oldsa s =
  let c := pthread_create_ret sys in
  let j := pthread_join_ret sys in
  if c =? 0
  then
    match run_thread sys oldsa (log (Call_pthread_create c) s) with
    | (Halt h, s1) => (Halt h, s1)
    | (Ok _, s1) =>
        if j =? 0
        then (Halt (Exit EXIT_SUCCESS),
              log (Call_exit EXIT_SUCCESS) (log (Call_pthread_join j) s1))
        else (Halt (Exit EXIT_FAILURE),
              log (Call_exit EXIT_FAILURE)
                (log (Call_fprintf_stderr fmt_join j)
                   (log (Call_pthread_join j) s1)))
    end
  else (Halt (Exit EXIT_FAILURE),
        log (Call_exit EXIT_FAILURE)
          (log (Call_fprintf_stderr fmt_create c)
             (log (Call_pthread_create c) s))).
Proof.
  cbv [main mbind M_bind mret M_ret pthread_create pthread_join emit
       fprintf_stderr exit].
  destruct (pthread_create_ret sys =? 0); cbv [negb]; [|reflexivity].
  destruct (run_thread sys oldsa _) as [[v|h] s1]; [|reflexivity].
  destruct (pthread_join_ret sys =? 0); reflexivity.
Qed.

End Spawner.

(** ** Wait status arithmetic *)

Lemma WTERMSIG_mod (raw : Z) : WTERMSIG raw = raw mod 128.
Proof. unfold WTERMSIG. apply (Z.land_ones raw 7). lia. Qed.

Lemma WEXITSTATUS_mod (raw : Z) : WEXITSTATUS raw = (raw / 256) mod 256.
Proof.
  unfold WEXITSTATUS. rewrite Z.shiftr_land.
  change (Z.shiftr 65280 8) with (Z.ones 8).
  rewrite Z.land_ones by lia. rewrite Z.shiftr_div_pow2 by lia. reflexivity.
Qed.

Lemma WIFEXITED_mod (raw : Z) : WIFEXITED raw = true <-> raw mod 128 = 0.
Proof. unfold WIFEXITED. rewrite WTERMSIG_mod. apply Z.eqb_eq. Qed.

Lemma WIFSIGNALED_mod (raw : Z) :
  WIFSIGNALED raw = true <-> 0 < raw mod 128 < 127.
Proof.
  unfold WIFSIGNALED. fold (WTERMSIG raw). rewrite WTERMSIG_mod.
  pose proof (Z.mod_pos_bound raw 128 ltac:(lia)) as Hb.
  set (m := raw mod 128) in *. unfold to_signed_char.
  rewrite Z.shiftr_div_pow2 by lia. change (2 ^ 1) with 2.
  rewrite (Z.mod_small (m + 1) 256) by lia.
  rewrite Z.ltb_lt.
  destruct (m + 1 <? 128) eqn:Hlt.
  - apply Z.ltb_lt in Hlt. split; intros H.
    + assert (m + 1 >= 2) by (destruct (Z_lt_ge_dec (m + 1) 2) as [Hs|]; [|lia];
        rewrite Z.div_small in H by lia; lia). lia.
    + apply Z.div_str_pos. lia.
  - apply Z.ltb_ge in Hlt. assert (m = 127) as -> by lia. split; intros H.
    + vm_compute in H. discriminate.
    + lia.
Qed.

Lemma W_EXITCODE_mod (c : Z) :
  0 <= c <= 255 ->
  W_EXITCODE c 0 mod 128 = 0 /\ (W_EXITCODE c 0 / 256) mod 256 = c.
Proof.
  intros Hc. unfold W_EXITCODE. rewrite Z.lor_0_r, Z.shiftl_mul_pow2 by lia.
  change (2 ^ 8) with 256. split.
  - replace (c * 256) with (c * 2 * 128) by lia. apply Z.mod_mul. lia.
  - rewrite Z.div_mul by lia. apply Z.mod_small. lia.
Qed.

Lemma W_KILLED_mod (sig : Z) (core : bool) :
  0 < sig < 127 -> W_KILLED sig core mod 128 = sig.
Proof.
  intros Hs. rewrite <- WTERMSIG_mod. unfold W_KILLED, WTERMSIG.
  rewrite Z.land_lor_distr_l.
  replace (Z.land (if core then 128 else 0) 127) with 0 by (destruct core; reflexivity).
  rewrite Z.lor_0_r. fold (WTERMSIG sig). rewrite WTERMSIG_mod.
  apply Z.mod_small. lia.
Qed.

(** ** The calls of the child continuation *)

(** The four shapes of the trace of the child continuation, one for each way
    it ends. *)
Lemma child_path_trace (sys : os) (old : gset Z) (oldsa : sigaction_t)
    (s sc : state) (rc : result Z) :
  child_path sys old oldsa s rc sc ->
  exists evs, Forall is_sigaction_call evs /\
    ((sigemptyset_ret sys <> 0 /\ rc = Halt (UExit 1) /\
      trace sc = trace s ++ [Call_sigemptyset (sigemptyset_ret sys); Call__exit 1] /\
      sigmask sc = sigmask s) \/
     (sigemptyset_ret sys = 0 /\ rc = Halt (UExit 2) /\
      trace sc = trace s ++ [Call_sigemptyset 0] ++ evs ++ [Call__exit 2] /\
      queried evs `prefix_of` seqZ 0 (NSIG sys) /\
      sigmask sc = sigmask s) \/
     (sigemptyset_ret sys = 0 /\ execve_err sys = None /\
      rc = Halt (Exec filename new_argv new_envp) /\
      trace sc = trace s ++ [Call_sigemptyset 0] ++ evs ++
                 [Call_pthread_sigmask SIG_SETMASK old;
                  Call_execve filename new_argv new_envp] /\
      queried evs = seqZ 0 (NSIG sys) /\
      sigmask sc = old ∖ unblockable sys) \/
     (sigemptyset_ret sys = 0 /\ (exists e, execve_err sys = Some e) /\
      rc = Halt (UExit 3) /\
      trace sc = trace s ++ [Call_sigemptyset 0] ++ evs ++
                 [Call_pthread_sigmask SIG_SETMASK old;
                  Call_execve filename new_argv new_envp;
                  Call__exit 3] /\
      queried evs = seqZ 0 (NSIG sys) /\
      sigmask sc = old ∖ unblockable sys)).
Proof.
  intros [Hne | s1 He Hl | s1 He Hl].
  - exists []. split; [constructor|]. left. cbn.
    rewrite <- app_assoc. auto.
  - destruct (reset_loop_frame _ _ _ _ _ _ _ Hl)
      as (Hm & _ & evs & Htr & _ & evs0 & -> & Hf & Hq).
    exists evs0. split; [exact Hf|]. right; left. cbn in Htr, Hm.
    repeat split; auto. rewrite Htr, <- !app_assoc. reflexivity.
  - destruct (reset_loop_frame _ _ _ _ _ _ _ Hl)
      as (Hm & _ & evs & Htr & Hf & Hq).
    exists evs. split; [exact Hf|]. right; right. cbn in Htr, Hm.
    destruct (execve_err sys) as [e|] eqn:Hx; [right | left]; cbn.
    + repeat split; eauto. rewrite Htr, <- !app_assoc. reflexivity.
    + repeat split; auto. rewrite Htr, <- !app_assoc. reflexivity.
Qed.

Lemma sigaction_call_not_execve (evs : list event) (p : string) (a e : list string) :
  Forall is_sigaction_call evs -> Call_execve p a e ∉ evs.
Proof.
  intros Hf Hin. rewrite Forall_forall in Hf. apply (Hf _ Hin).
Qed.

Lemma sigaction_call_not_setmask (evs : list event) :
  Forall is_sigaction_call evs -> Forall (fun e => is_setmask e = false) evs.
Proof.
  intros Hf. eapply Forall_impl; [exact Hf|].
  intros []; cbn; intros H; try reflexivity; destruct H.
Qed.

Lemma sigaction_call_not_parent_side (evs : list event) :
  Forall is_sigaction_call evs -> Forall (fun e => parent_side e = false) evs.
Proof.
  intros Hf. eapply Forall_impl; [exact Hf|].
  intros []; cbn; intros H; try reflexivity; destruct H.
Qed.

(** ** [main] and its thread *)

(** What [run_thread] leaves to the process that called it: [NULL] after a
    child was created and reaped, with the raw wait status in [status], or
    the end of the process with [EXIT_FAILURE]; and no call that manages a
    thread. *)
Lemma run_thread_cases (sys : os) (oldsa : sigaction_t) (s : state) :
  exists r s1 evs,
    run_thread sys oldsa s = (r, s1) /\
    trace s1 = trace s ++ evs /\
    Forall (fun ev => is_thread_call ev = false) evs /\
    ((r = Ok NULL /\
      exists pid raw, vfork_ans sys = Forked pid /\
        waitpid_ans sys = Reaped raw /\ status s1 = raw) \/
     (r = Halt (Exit EXIT_FAILURE) /\
      ((exists e, vfork_ans sys = ForkError e) \/
       (exists e, waitpid_ans sys = WaitError e)))).
Proof.
  unfold run_thread. destruct (vfork_ans sys) as [pid|e] eqn:Hv.
  - pose proof (spawn_and_wait_parent sys oldsa s pid Hv) as Hp. cbv zeta in Hp.
    destruct Hp as (_ & _ & Hp).
    destruct (waitpid_ans sys) as [raw|e] eqn:Hw.
    + destruct Hp as (Hr & Hst & Ht). do 3 eexists.
      split; [reflexivity|]. split; [exact Ht|]. split.
      * destruct (WIFEXITED raw); [|destruct (WIFSIGNALED raw)];
          repeat constructor.
      * left. split; [exact Hr|]. exists pid, raw. auto.
    + destruct Hp as (Hr & Ht). do 3 eexists.
      split; [reflexivity|]. split; [exact Ht|]. split; [repeat constructor|].
      right. split; [exact Hr|]. right. eauto.
  - rewrite (spawn_and_wait_error sys oldsa s e Hv). do 3 eexists.
    split; [reflexivity|]. split; [reflexivity|]. split; [repeat constructor|].
    right. split; [reflexivity|]. left. eauto.
Qed.

(** * More on the loop and on the child block *)


(** ** The reset loop, on every way out *)

Section LoopMore.

Variable sys : os.

(** Whether the loop completes or stops, an entry of the table is as it was
    or is a handler that was reset to the template. *)
Lemma reset_loop_preserves (sigs : list Z) :
  forall (newsa oldsa : sigaction_t) (s s' : state) (r : result unit),
  reset_loop sys sigs newsa oldsa s = (r, s') ->
  forall i : Z,
    sigtable s' !! i = sigtable s !! i \/
    (i ∈ sigs /\ exists sa, sigtable s !! i = Some sa /\
       is_custom (sa_handler sa) = true /\
       sigaction_set_err sys i = None /\ sigtable s' !! i = Some newsa).
Proof.
  induction sigs as [|j rest IH]; intros newsa oldsa s s' r H i.
  - cbn in H. injection H as <- <-. left. reflexivity.
  - loop_step H j s.
    2: { injection H as <- <-. left. reflexivity. }
    all: destruct (IH _ _ _ _ _ H i) as [Heq | (Hin & sa' & Hlk' & Hcu' & Hse' & Hnew)];
      cbn in Heq || cbn in Hlk'.
    3: { destruct (decide (i = j)) as [->|Hne].
         - right. split; [apply elem_of_cons; auto|].
           exists sa. rewrite Heq, lookup_insert_eq. auto.
         - left. rewrite Heq. apply lookup_insert_ne. congruence. }
    3: { destruct (decide (i = j)) as [->|Hne].
         - right. split; [apply elem_of_cons; auto|]. exists sa. auto.
         - rewrite lookup_insert_ne in Hlk' by congruence.
           right. split; [apply elem_of_cons; auto|]. exists sa'. auto. }
    all: first [ left; exact Heq
               | right; split; [apply elem_of_cons; auto|]; exists sa'; auto ].
Qed.

(** The calls that set an action: made with the template, on signal numbers
    whose action was a handler when the loop began, and following the order of
    the loop without repeating. *)
Lemma reset_loop_sets (sigs : list Z) :
  forall (newsa oldsa : sigaction_t) (s s' : state) (r : result unit),
  is_custom (sa_handler newsa) = false ->
  reset_loop sys sigs newsa oldsa s = (r, s') ->
  exists evs, trace s' = trace s ++ evs /\
    resets evs `sublist_of` sigs /\
    forall sig act ret, Call_sigaction_set sig act ret ∈ evs ->
      act = newsa /\
      exists sa, sigtable s !! sig = Some sa /\ is_custom (sa_handler sa) = true.
Proof.
  induction sigs as [|j rest IH]; intros newsa oldsa s s' r Hnew H.
  - cbn in H. injection H as <- <-. exists []. rewrite app_nil_r.
    split; [reflexivity|]. split; [constructor|].
    intros sig act ret Hin. apply elem_of_nil in Hin. contradiction.
  - loop_step H j s.
    2: { injection H as <- <-.
         exists [Call_sigaction_get j 0; Call_sigaction_set j newsa (-1);
                 Call__exit 2].
         split; [cbn; rewrite <- !app_assoc; reflexivity|].
         split; [cbn; apply sublist_skip, sublist_nil_l|].
         intros sig act ret Hin.
         apply elem_of_cons in Hin as [Hin|Hin]; [discriminate|].
         apply elem_of_cons in Hin as [Hin|Hin];
           [injection Hin as -> -> ->; eauto|].
         apply elem_of_cons in Hin as [Hin|Hin]; [discriminate|].
         apply elem_of_nil in Hin. contradiction. }
    all: destruct (IH _ _ _ _ _ Hnew H) as (evs & Htr & Hsub & Hsets);
      cbn in Htr, Hsets.
    + (* reset failed with EINVAL *)
      exists ([Call_sigaction_get j 0; Call_sigaction_set j newsa (-1)] ++ evs).
      split; [rewrite Htr, <- !app_assoc; reflexivity|].
      split; [cbn; apply sublist_skip, Hsub|].
      intros sig act ret Hin. cbn in Hin.
      apply elem_of_cons in Hin as [Hin|Hin]; [discriminate|].
      apply elem_of_cons in Hin as [Hin|Hin];
        [injection Hin as -> -> ->; eauto|].
      eauto.
    + (* reset done *)
      exists ([Call_sigaction_get j 0; Call_sigaction_set j newsa 0] ++ evs).
      split; [rewrite Htr, <- !app_assoc; reflexivity|].
      split; [cbn; apply sublist_skip, Hsub|].
      intros sig act ret Hin. cbn in Hin.
      apply elem_of_cons in Hin as [Hin|Hin]; [discriminate|].
      apply elem_of_cons in Hin as [Hin|Hin];
        [injection Hin as -> -> ->; eauto|].
      destruct (Hsets _ _ _ Hin) as (-> & sa' & Hlk' & Hcu').
      split; [reflexivity|].
      destruct (decide (sig = j)) as [->|Hne].
      * rewrite lookup_insert_eq in Hlk'. congruence.
      * rewrite lookup_insert_ne in Hlk' by congruence. eauto.
    + (* not a handler *)
      exists ([Call_sigaction_get j 0] ++ evs).
      split; [rewrite Htr, <- !app_assoc; reflexivity|].
      split; [cbn; apply sublist_cons, Hsub|].
      intros sig act ret Hin. cbn in Hin.
      apply elem_of_cons in Hin as [Hin|Hin]; [discriminate|]. eauto.
    + (* query failed *)
      exists ([Call_sigaction_get j (-1)] ++ evs).
      split; [rewrite Htr, <- !app_assoc; reflexivity|].
      split; [cbn; apply sublist_cons, Hsub|].
      intros sig act ret Hin. cbn in Hin.
      apply elem_of_cons in Hin as [Hin|Hin]; [discriminate|]. eauto.
Qed.

(** A loop that stops has queried the signal numbers up to one with a fatal
    reset, and none of those before it has a fatal reset. *)
Lemma reset_loop_first_fatal (sigs : list Z) :
  forall (newsa oldsa : sigaction_t) (s s' : state) (h : halt),
  is_custom (sa_handler newsa) = false ->
  reset_loop sys sigs newsa oldsa s = (Halt h, s') ->
  exists pre i post evs,
    sigs = pre ++ i :: post /\
    trace s' = trace s ++ evs ++ [Call__exit 2] /\
    queried evs = pre ++ [i] /\
    fatal_reset sys (sigtable s) i /\
    forall j, j ∈ pre -> ~ fatal_reset sys (sigtable s) j.
Proof.
  induction sigs as [|j rest IH]; intros newsa oldsa s s' h Hnew H.
  - discriminate.
  - loop_step H j s.
    2: { injection H as <- <-.
         exists [], j, rest,
           [Call_sigaction_get j 0; Call_sigaction_set j newsa (-1)].
         split; [reflexivity|].
         split; [cbn; rewrite <- !app_assoc; reflexivity|].
         split; [reflexivity|]. split.
         - exists sa, e. apply Z.eqb_neq in Hei. auto.
         - intros k Hk. apply elem_of_nil in Hk. contradiction. }
    all: destruct (IH _ _ _ _ _ Hnew H)
           as (pre & i & post & evs & -> & Htr & Hq & Hfat & Hpre);
      cbn in Htr, Hfat, Hpre.
    all: assert (Hj : ~ fatal_reset sys (sigtable s) j)
           by (intros (sa0 & e0 & Hl0 & Hc0 & Hs0 & Hn0);
               try apply Z.eqb_eq in Hei; congruence).
    all: match type of Htr with
         | _ = ((_ ++ ?p1) ++ ?p2) ++ _ =>
             exists (j :: pre), i, post, ((p1 ++ p2) ++ evs)
         | _ = (_ ++ ?p1) ++ _ =>
             exists (j :: pre), i, post, (p1 ++ evs)
         end.
    all: split; [reflexivity|].
    all: split; [rewrite Htr, <- ?app_assoc; reflexivity|].
    all: split; [unfold queried in *; rewrite omap_app, Hq; reflexivity|].
    2: { (* the table changed at [j] *)
         split.
         - destruct Hfat as (sa0 & e0 & Hl0 & Hc0 & Hs0 & Hn0).
           destruct (decide (i = j)) as [->|Hne].
           + rewrite lookup_insert_eq in Hl0. congruence.
           + rewrite lookup_insert_ne in Hl0 by congruence.
             exists sa0, e0. auto.
         - intros k Hk. destruct (decide (k = j)) as [->|Hne]; [exact Hj|].
           apply elem_of_cons in Hk as [Hk|Hk]; [contradiction|].
           intros (sa0 & e0 & Hl0 & Hc0 & Hs0 & Hn0).
           apply (Hpre k Hk). exists sa0, e0.
           rewrite lookup_insert_ne by congruence. auto. }
    all: split; [exact Hfat|].
    all: intros k Hk; apply elem_of_cons in Hk as [->|Hk]; [exact Hj|auto].
Qed.

End LoopMore.

(** ** The child continuation, on every way out *)

Lemma seqZ_split (pre : list Z) :
  forall (m n i : Z) (post : list Z),
  seqZ m n = pre ++ i :: post ->
  pre = seqZ m (i - m) /\ m <= i < m + n.
Proof.
  induction pre as [|a pre IH]; intros m n i post H.
  - destruct (Z_lt_le_dec 0 n) as [Hn|Hn].
    + rewrite seqZ_cons in H by lia. injection H as <- _.
      rewrite Z.sub_diag. split; [reflexivity|lia].
    + rewrite seqZ_nil in H by lia. discriminate.
  - destruct (Z_lt_le_dec 0 n) as [Hn|Hn].
    + rewrite seqZ_cons in H by lia. cbn in H. injection H as <- H.
      apply IH in H as [-> Hb]. split; [|lia].
      rewrite (seqZ_cons m (i - m)) by lia. f_equal. f_equal. lia.
    + rewrite seqZ_nil in H by lia. discriminate.
Qed.

Section ChildMore.

Variable sys : os.

(** The child never writes the global [status]. *)
Lemma child_path_status (old : gset Z) (oldsa : sigaction_t) (s sc : state)
    (rc : result Z) :
  child_path sys old oldsa s rc sc -> status sc = status s.
Proof.
  intros [Hne | s1 He Hl | s1 He Hl].
  - reflexivity.
  - destruct (reset_loop_frame _ _ _ _ _ _ _ Hl) as (_ & Hst & _). exact Hst.
  - destruct (reset_loop_frame _ _ _ _ _ _ _ Hl) as (_ & Hst & _).
    destruct (execve_err sys); exact Hst.
Qed.

(** The table of the child at its end, entry by entry. *)
Lemma child_path_table (old : gset Z) (oldsa : sigaction_t) (s sc : state)
    (rc : result Z) :
  child_path sys old oldsa s rc sc ->
  forall i : Z,
    sigtable sc !! i = sigtable s !! i \/
    (0 <= i < NSIG sys /\ exists sa, sigtable s !! i = Some sa /\
       is_custom (sa_handler sa) = true /\
       sigaction_set_err sys i = None /\
       sigtable sc !! i = Some (Sigaction SIG_DFL ∅ 0 0)).
Proof.
  intros Hp i.
  assert (Hloop : forall r s1,
    reset_loop sys (seqZ 0 (NSIG sys)) (Sigaction SIG_DFL ∅ 0 0) oldsa
      (log (Call_sigemptyset 0) s) = (r, s1) ->
    sigtable s1 !! i = sigtable s !! i \/
    (0 <= i < NSIG sys /\ exists sa, sigtable s !! i = Some sa /\
       is_custom (sa_handler sa) = true /\
       sigaction_set_err sys i = None /\
       sigtable s1 !! i = Some (Sigaction SIG_DFL ∅ 0 0))).
  { intros r s1 Hl.
    destruct (reset_loop_preserves sys _ _ _ _ _ _ Hl i)
      as [Heq | (Hin & sa & Hlk & Hcu & Hse & Hnew)]; [left; exact Heq|].
    right. apply elem_of_seqZ in Hin. split; [lia|]. exists sa. auto. }
  destruct Hp as [Hne | s1 He Hl | s1 He Hl].
  - left. reflexivity.
  - exact (Hloop _ _ Hl).
  - destruct (execve_err sys); exact (Hloop _ _ Hl).
Qed.

(** The calls of the child that set an action. *)
Lemma child_path_sets (old : gset Z) (oldsa : sigaction_t) (s sc : state)
    (rc : result Z) :
  child_path sys old oldsa s rc sc ->
  exists evs, trace sc = trace s ++ evs /\
    resets evs `sublist_of` seqZ 0 (NSIG sys) /\
    forall sig act ret, Call_sigaction_set sig act ret ∈ evs ->
      act = Sigaction SIG_DFL ∅ 0 0 /\
      exists sa, sigtable s !! sig = Some sa /\ is_custom (sa_handler sa) = true.
Proof.
  intros [Hne | s1 He Hl | s1 He Hl].
  - eexists. split; [cbn; rewrite <- app_assoc; reflexivity|].
    split; [apply sublist_nil_l|].
    intros sig act ret Hin.
    repeat (apply elem_of_cons in Hin as [Hin|Hin]; [discriminate|]).
    apply elem_of_nil in Hin. contradiction.
  - destruct (reset_loop_sets sys _ (Sigaction SIG_DFL ∅ 0 0) _ _ _ _ eq_refl Hl)
      as (evs & Htr & Hsub & Hsets). cbn in Htr, Hsets.
    exists (Call_sigemptyset 0 :: evs).
    split; [rewrite Htr, <- app_assoc; reflexivity|].
    split; [exact Hsub|].
    intros sig act ret Hin.
    apply elem_of_cons in Hin as [Hin|Hin]; [discriminate|]. eauto.
  - destruct (reset_loop_sets sys _ (Sigaction SIG_DFL ∅ 0 0) _ _ _ _ eq_refl Hl)
      as (evs & Htr & Hsub & Hsets). cbn in Htr, Hsets.
    assert (Hin1 : forall l sig act ret,
      Forall (fun ev => reset_of ev = None) l ->
      Call_sigaction_set sig act ret ∈ Call_sigemptyset 0 :: evs ++ l ->
      Call_sigaction_set sig act ret ∈ evs).
    { intros l sig act ret Hl' Hin.
      apply elem_of_cons in Hin as [Hin|Hin]; [discriminate|].
      apply elem_of_app in Hin as [Hin|Hin]; [exact Hin|].
      rewrite Forall_forall in Hl'. specialize (Hl' _ Hin). discriminate. }
    assert (Hres : forall l, Forall (fun ev => reset_of ev = None) l ->
      resets (Call_sigemptyset 0 :: evs ++ l) = resets evs).
    { intros l Hl'. unfold resets. cbn. rewrite omap_app.
      replace (omap reset_of l) with (@nil Z); [apply app_nil_r|].
      induction Hl' as [|x l Hx _ IHl]; [reflexivity|].
      cbn. rewrite Hx. exact IHl. }
    destruct (execve_err sys) as [e|].
    + exists (Call_sigemptyset 0 :: evs ++
              [Call_pthread_sigmask SIG_SETMASK old;
               Call_execve filename new_argv new_envp; Call__exit 3]).
      split; [cbn; rewrite Htr, <- !app_assoc; reflexivity|].
      split; [rewrite Hres by (repeat constructor); exact Hsub|].
      intros sig act ret Hin. apply Hin1 in Hin; [eauto|repeat constructor].
    + exists (Call_sigemptyset 0 :: evs ++
              [Call_pthread_sigmask SIG_SETMASK old;
               Call_execve filename new_argv new_envp]).
      split; [cbn; rewrite Htr, <- !app_assoc; reflexivity|].
      split; [rewrite Hres by (repeat constructor); exact Hsub|].
      intros sig act ret Hin. apply Hin1 in Hin; [eauto|repeat constructor].
Qed.

End ChildMore.

(** ** The queries of the loop, and the child block as a whole *)

Section LoopQueries.

Variable sys : os.

(** What a query of the loop returns: 0 for a signal number of the table the
    loop began with, -1 for any other. *)
Lemma reset_loop_gets (sigs : list Z) :
  forall (newsa oldsa : sigaction_t) (s s' : state) (r : result unit),
  reset_loop sys sigs newsa oldsa s = (r, s') ->
  exists evs, trace s' = trace s ++ evs /\
    forall i ret, Call_sigaction_get i ret ∈ evs ->
      (ret = 0 /\ is_Some (sigtable s !! i)) \/
      (ret = -1 /\ sigtable s !! i = None).
Proof.
  induction sigs as [|j rest IH]; intros newsa oldsa s s' r H.
  - cbn in H. injection H as <- <-. exists []. rewrite app_nil_r.
    split; [reflexivity|].
    intros i ret Hin. apply elem_of_nil in Hin. contradiction.
  - loop_step H j s.
    2: { injection H as <- <-.
         exists [Call_sigaction_get j 0; Call_sigaction_set j newsa (-1);
                 Call__exit 2].
         split; [cbn; rewrite <- !app_assoc; reflexivity|].
         intros i ret Hin.
         apply elem_of_cons in Hin as [Hin|Hin];
           [injection Hin as -> ->; left; eauto|].
         repeat (apply elem_of_cons in Hin as [Hin|Hin]; [discriminate|]).
         apply elem_of_nil in Hin. contradiction. }
    all: destruct (IH _ _ _ _ _ H) as (evs & Htr & Hgets); cbn in Htr, Hgets.
    + exists ([Call_sigaction_get j 0; Call_sigaction_set j newsa (-1)] ++ evs).
      split; [rewrite Htr, <- !app_assoc; reflexivity|].
      intros i ret Hin. cbn in Hin.
      apply elem_of_cons in Hin as [Hin|Hin];
        [injection Hin as -> ->; left; eauto|].
      apply elem_of_cons in Hin as [Hin|Hin]; [discriminate|]. auto.
    + exists ([Call_sigaction_get j 0; Call_sigaction_set j newsa 0] ++ evs).
      split; [rewrite Htr, <- !app_assoc; reflexivity|].
      intros i ret Hin. cbn in Hin.
      apply elem_of_cons in Hin as [Hin|Hin];
        [injection Hin as -> ->; left; eauto|].
      apply elem_of_cons in Hin as [Hin|Hin]; [discriminate|].
      destruct (Hgets _ _ Hin) as [[-> Hs] | [-> Hn]].
      * left. split; [reflexivity|].
        destruct (decide (i = j)) as [->|Hne]; [eauto|].
        rewrite lookup_insert_ne in Hs by congruence. exact Hs.
      * right. split; [reflexivity|].
        destruct (decide (i = j)) as [->|Hne].
        -- rewrite lookup_insert_eq in Hn. discriminate.
        -- rewrite lookup_insert_ne in Hn by congruence. exact Hn.
    + exists ([Call_sigaction_get j 0] ++ evs).
      split; [rewrite Htr, <- !app_assoc; reflexivity|].
      intros i ret Hin. cbn in Hin.
      apply elem_of_cons in Hin as [Hin|Hin];
        [injection Hin as -> ->; left; eauto|]. auto.
    + exists ([Call_sigaction_get j (-1)] ++ evs).
      split; [rewrite Htr, <- !app_assoc; reflexivity|].
      intros i ret Hin. cbn in Hin.
      apply elem_of_cons in Hin as [Hin|Hin];
        [injection Hin as -> ->; right; eauto|]. auto.
Qed.

(** The child block once [sigemptyset] has succeeded: its calls are that
    one, the calls [evs] of the loop, and a tail that is [_exit (2)] when some
    reset is fatal and otherwise the restoring call, [execve] and, when
    [execve] fails, [_exit (3)]. *)
Lemma child_path_loop (old : gset Z) (oldsa : sigaction_t) (s sc : state)
    (rc : result Z) :
  child_path sys old oldsa s rc sc ->
  sigemptyset_ret sys = 0 ->
  exists evs tail,
    trace sc = trace s ++ [Call_sigemptyset 0] ++ evs ++ tail /\
    Forall is_sigaction_call evs /\
    (forall i ret, Call_sigaction_get i ret ∈ evs ->
       (ret = 0 /\ is_Some (sigtable s !! i)) \/
       (ret = -1 /\ sigtable s !! i = None)) /\
    (forall i act ret, Call_sigaction_set i act ret ∈ evs ->
       is_Some (sigtable s !! i)) /\
    ((rc = Halt (UExit 2) /\ tail = [Call__exit 2] /\
      exists k, 0 <= k < NSIG sys /\ fatal_reset sys (sigtable s) k /\
        queried evs = seqZ 0 (k + 1)) \/
     (queried evs = seqZ 0 (NSIG sys) /\
      ~ (exists i, 0 <= i < NSIG sys /\ fatal_reset sys (sigtable s) i) /\
      sigmask sc = old ∖ unblockable sys /\
      ((execve_err sys = None /\
        rc = Halt (Exec filename new_argv new_envp) /\
        tail = [Call_pthread_sigmask SIG_SETMASK old;
                Call_execve filename new_argv new_envp]) \/
       (execve_err sys <> None /\
        rc = Halt (UExit 3) /\
        tail = [Call_pthread_sigmask SIG_SETMASK old;
                Call_execve filename new_argv new_envp;
                Call__exit 3])))).
Proof.
  intros Hp He0.
  destruct Hp as [Hne | s1 He Hl | s1 He Hl]; [contradiction| |].
  - destruct (reset_loop_frame _ _ _ _ _ _ _ Hl)
      as (_ & _ & evsA & HtA & _ & evs0 & -> & Hf & _).
    destruct (reset_loop_gets _ _ _ _ _ _ Hl) as (evsG & HtG & Hgets).
    destruct (reset_loop_sets sys _ (Sigaction SIG_DFL ∅ 0 0) _ _ _ _ eq_refl Hl)
      as (evsS & HtS & _ & Hsets).
    destruct (reset_loop_first_fatal sys _ (Sigaction SIG_DFL ∅ 0 0) _ _ _ _
                eq_refl Hl)
      as (pre & k & post & evsF & Hsplit & HtF & Hq & Hfat & _).
    rewrite HtA in HtG, HtS, HtF.
    apply app_inv_head in HtG, HtS, HtF. subst evsG evsS.
    apply app_inj_tail in HtF as [<- _].
    apply seqZ_split in Hsplit as [-> Hk]. rewrite Z.sub_0_r in Hq.
    cbn in HtA, Hgets, Hsets, Hfat.
    exists evs0, [Call__exit 2].
    split; [rewrite HtA, <- !app_assoc; reflexivity|].
    split; [exact Hf|]. split.
    { intros i ret Hin. apply Hgets. apply elem_of_app. auto. }
    split.
    { intros i act ret Hin.
      destruct (Hsets i act ret) as (_ & sa & -> & _); [|eauto].
      apply elem_of_app. auto. }
    left. split; [reflexivity|]. split; [reflexivity|].
    exists k. split; [lia|]. split; [exact Hfat|].
    rewrite Hq, (seqZ_app 0 k 1) by lia. reflexivity.
  - destruct (reset_loop_frame _ _ _ _ _ _ _ Hl)
      as (_ & _ & evsA & HtA & Hf & Hq).
    destruct (reset_loop_gets _ _ _ _ _ _ Hl) as (evsG & HtG & Hgets).
    destruct (reset_loop_sets sys _ (Sigaction SIG_DFL ∅ 0 0) _ _ _ _ eq_refl Hl)
      as (evsS & HtS & _ & Hsets).
    rewrite HtA in HtG, HtS. apply app_inv_head in HtG, HtS. subst evsG evsS.
    cbn in HtA, Hgets, Hsets.
    assert (Hnf : ~ exists i, 0 <= i < NSIG sys /\ fatal_reset sys (sigtable s) i).
    { intros (i & Hi & sa & e & Hlk & Hcu & Hse & Hn).
      assert (Hin : i ∈ seqZ 0 (NSIG sys)) by (apply elem_of_seqZ; lia).
      destruct (reset_loop_table sys _ (Sigaction SIG_DFL ∅ 0 0) _ _ _ eq_refl Hl i)
        as (_ & _ & _ & Hreset).
      destruct (Hreset sa Hin Hlk Hcu) as [[Hx _] | [Hx _]]; congruence. }
    destruct (execve_err sys) as [e|] eqn:Hx.
    + exists evsA, [Call_pthread_sigmask SIG_SETMASK old;
                    Call_execve filename new_argv new_envp; Call__exit 3].
      split; [cbn; rewrite HtA, <- !app_assoc; reflexivity|].
      split; [exact Hf|]. split; [exact Hgets|]. split.
      { intros i act ret Hin. destruct (Hsets i act ret Hin) as (_ & sa & -> & _).
        eauto. }
      right. split; [exact Hq|]. split; [exact Hnf|]. split; [reflexivity|].
      right. split; [discriminate|]. split; reflexivity.
    + exists evsA, [Call_pthread_sigmask SIG_SETMASK old;
                    Call_execve filename new_argv new_envp].
      split; [cbn; rewrite HtA, <- !app_assoc; reflexivity|].
      split; [exact Hf|]. split; [exact Hgets|]. split.
      { intros i act ret Hin. destruct (Hsets i act ret Hin) as (_ & sa & -> & _).
        eauto. }
      right. split; [exact Hq|]. split; [exact Hnf|]. split; [reflexivity|].
      left. split; [reflexivity|]. split; reflexivity.
Qed.

End LoopQueries.

(** * The claims *)

(** C1. The signal mask is restored to the mask captured before the spawn
    ([old_signal_mask], the mask in force when [run_thread] began) on every
    continuation.  In the calling thread, whatever [vfork] and [waitpid]
    answer, the mask at the end equals the mask at the start, and exactly one
    call [pthread_sigmask (SIG_SETMASK, &old_signal_mask, NULL)] was made.
    When [vfork] succeeds there is a child continuation; it goes on to replace
    its image (it ends in [execve] or, [execve] failing, in [_exit (3)])
    whenever [sigemptyset] succeeds and no reset is fatal; and whenever it
    does, it has made that same restoring call exactly once, as the call just
    before [execve], and its mask is the mask the caller had before the
    spawn.  The masks are those the kernel can hold: none contains a signal
    that cannot be blocked. *)
Theorem signal_mask_restored (sys : os) (oldsa : sigaction_t) (s : state) :
  sigmask s ## unblockable sys ->
  let r := spawn_and_wait sys oldsa s in
  sigmask (parent_final r) = sigmask s /\
  (exists evs, trace (parent_final r) = trace s ++ evs /\
     filter (fun e => is_setmask e = true) evs =
     [Call_pthread_sigmask SIG_SETMASK (sigmask s)]) /\
  (forall pid, vfork_ans sys = Forked pid ->
     exists rc sc, child_run r = Some (rc, sc)) /\
  (forall rc sc, child_run r = Some (rc, sc) ->
     (sigemptyset_ret sys = 0 ->
      ~ (exists i, 0 <= i < NSIG sys /\ fatal_reset sys (sigtable s) i) ->
      rc = Halt (Exec filename new_argv new_envp) \/ rc = Halt (UExit 3)) /\
     (rc = Halt (Exec filename new_argv new_envp) \/ rc = Halt (UExit 3) ->
      sigmask sc = sigmask s /\
      filter (fun e => is_setmask e = true) (trace sc) =
        [Call_pthread_sigmask SIG_SETMASK (sigmask s)] /\
      exists pre post,
        trace sc = pre ++ [Call_pthread_sigmask SIG_SETMASK (sigmask s);
                           Call_execve filename new_argv new_envp] ++ post /\
        Forall (fun e => is_setmask e = false) pre)).
Proof.
  intros Hd r. subst r.
  assert (Hold : sigmask s ∖ unblockable sys = sigmask s)
    by (apply difference_disjoint_L; exact Hd).
  destruct (vfork_ans sys) as [pid|e] eqn:Hv.
  - pose proof (spawn_and_wait_parent sys oldsa s pid Hv) as Hp. cbv zeta in Hp.
    destruct Hp as (Hm & _ & Hp).
    split; [congruence|]. split.
    { destruct (waitpid_ans sys) as [raw|e].
      - destruct Hp as (_ & _ & ->). eexists. split; [reflexivity|].
        destruct (WIFEXITED raw); [|destruct (WIFSIGNALED raw)]; reflexivity.
      - destruct Hp as (_ & ->). eexists. split; reflexivity. }
    destruct (spawn_and_wait_forked sys oldsa s pid Hv)
      as (rc' & sc' & Hpath & Heq).
    rewrite Heq. destruct (run_thread_resume _ _ _ _ _) as [rp sp]. cbn.
    split; [intros _ _; eauto|].
    intros rc sc Hc. injection Hc as <- <-.
    destruct (Z.eq_dec (sigemptyset_ret sys) 0) as [He|He].
    + destruct (child_path_loop sys _ _ _ _ _ Hpath He)
        as (evs & tail & Ht & Hf & _ & _ & Hcase).
      cbn in Ht, Hcase.
      pose proof (sigaction_call_not_setmask evs Hf) as Hns.
      assert (Hfil : filter (fun e => is_setmask e = true) evs = []).
      { clear -Hns. induction Hns as [|x l Hx _ IHl]; [reflexivity|].
        rewrite filter_cons_False by (rewrite Hx; discriminate). exact IHl. }
      destruct Hcase as [(-> & _ & k & Hk & Hfat & _) |
        (_ & Hnf & Hmc & [(_ & -> & ->) | (_ & -> & ->)])].
      * split; [intros _ Hnf; destruct Hnf; eauto|].
        intros [Hx|Hx]; discriminate.
      * split; [auto|]. intros _. split; [congruence|]. split.
        -- rewrite Ht. rewrite filter_cons_False by discriminate.
           rewrite filter_app, Hfil. reflexivity.
        -- exists (Call_sigemptyset 0 :: evs), []. split; [exact Ht|].
           constructor; [reflexivity|exact Hns].
      * split; [auto|]. intros _. split; [congruence|]. split.
        -- rewrite Ht. rewrite filter_cons_False by discriminate.
           rewrite filter_app, Hfil. reflexivity.
        -- exists (Call_sigemptyset 0 :: evs), [Call__exit 3].
           split; [exact Ht|]. constructor; [reflexivity|exact Hns].
    + destruct (child_path_trace _ _ _ _ _ _ Hpath) as (evs & _ & Hshape).
      destruct Hshape as [(_ & -> & _) | [(He' & _) | [(He' & _) | (He' & _)]]];
        try contradiction.
      split; [intros He'; contradiction|]. intros [Hx|Hx]; discriminate.
  - rewrite (spawn_and_wait_error sys oldsa s e Hv). cbn.
    split; [exact Hold|]. split; [eexists; split; reflexivity|].
    split; [intros pid Hpid; discriminate|].
    intros rc sc Hc. discriminate.
Qed.

Lemma signal_mask_restored_witness :
  let sys := linux (Forked 4242) (Reaped 0) 0 in
  let r := spawn_and_wait sys sa_default busy in
  sigmask busy ## unblockable sys /\
  sigmask (parent_final r) = sigmask busy /\
  exists rc sc, child_run r = Some (rc, sc) /\
    (rc = Halt (Exec filename new_argv new_envp) \/ rc = Halt (UExit 3)) /\
    sigmask sc = sigmask busy /\
    filter (fun e => is_setmask e = true) (trace sc) =
      [Call_pthread_sigmask SIG_SETMASK (sigmask busy)].
Proof.
  cbv zeta.
  assert (H : sigmask busy ## unblockable (linux (Forked 4242) (Reaped 0) 0)).
  { apply (bool_decide_unpack _). vm_compute. exact I. }
  split; [exact H|].
  destruct (signal_mask_restored (linux (Forked 4242) (Reaped 0) 0)
              sa_default busy H) as (Hm & _ & Hex & Hch).
  split; [exact Hm|].
  destruct (Hex 4242%positive eq_refl) as (rc & sc & Hc).
  exists rc, sc. split; [exact Hc|].
  destruct (Hch rc sc Hc) as [Hreach Hrest].
  assert (Hrc : rc = Halt (Exec filename new_argv new_envp) \/ rc = Halt (UExit 3)).
  { apply Hreach; [reflexivity|].
    intros (i & Hi & sa & e & Hlk & Hcu & Hse & Hne).
    change (sigaction_set_err (linux (Forked 4242) (Reaped 0) 0) i)
      with (linux_set_err i) in Hse.
    unfold linux_set_err in Hse. case_bool_decide; congruence. }
  split; [exact Hrc|].
  destruct (Hrest Hrc) as (Hms & Hfil & _). auto.
Defined.

(** C2, as stated, fails.  On Linux signal number 0 is inside the range of
    the loop and is not a signal, so the query of its action fails; the child
    does not terminate with code 1, it goes on and replaces its image. *)
Lemma query_failure_fatal_counterexample :
  let sys := linux (Forked 4242) (Reaped 0) 0 in
  let r := run_thread_resume sys 0 (sigmask busy) sa_default busy in
  0 <= 0 < NSIG sys /\
  fst (sigaction_get 0 sa_default busy) = Ok (-1, sa_default) /\
  Call_sigaction_get 0 (-1) ∈ trace (snd r) /\
  fst r = Halt (Exec filename new_argv new_envp) /\
  fst r <> Halt (UExit 1).
Proof.
  cbv zeta. split; [vm_compute; split; [discriminate|reflexivity]|].
  split; [vm_compute; reflexivity|].
  split; [apply (bool_decide_unpack _); vm_compute; exact I|].
  split; [vm_compute; reflexivity|].
  vm_compute. discriminate.
Qed.

(** C2, amended.  In the child continuation, once [sigemptyset] has
    succeeded the action of every signal number from 0 to [NSIG - 1] is
    queried, in increasing order: all of them unless the child terminates with
    code 2, and then those up to the signal whose reset was fatal.  A query
    that fails is not fatal: it returns -1, no attempt is made to set that
    signal's action, and the loop goes on to query the next signal number.
    The child terminates with reserved code 1 exactly when [sigemptyset]
    fails, and then [sigemptyset] and [_exit (1)] are its only calls: no
    signal was queried. *)
Theorem query_failure_skipped (sys : os) (old : gset Z) (oldsa : sigaction_t)
    (s sc : state) (rc : result Z) :
  run_thread_resume sys 0 old oldsa s = (rc, sc) ->
  exists evs, trace sc = trace s ++ evs /\
    (rc = Halt (UExit 1) <-> sigemptyset_ret sys <> 0) /\
    (sigemptyset_ret sys <> 0 ->
     evs = [Call_sigemptyset (sigemptyset_ret sys); Call__exit 1]) /\
    (sigemptyset_ret sys = 0 ->
     queried evs `prefix_of` seqZ 0 (NSIG sys) /\
     (rc <> Halt (UExit 2) -> queried evs = seqZ 0 (NSIG sys)) /\
     (rc = Halt (UExit 2) ->
      exists k, 0 <= k < NSIG sys /\ fatal_reset sys (sigtable s) k /\
        queried evs = seqZ 0 (k + 1)) /\
     (forall i, i ∈ queried evs -> sigtable s !! i = None ->
        Call_sigaction_get i (-1) ∈ evs /\
        (forall act ret, Call_sigaction_set i act ret ∉ evs) /\
        (i + 1 < NSIG sys -> i + 1 ∈ queried evs))) /\
    (forall i rest newsa oldsa' s',
       fst (sigaction_get i oldsa' s') = Ok (-1, oldsa') ->
       reset_loop sys (i :: rest) newsa oldsa' s' =
       reset_loop sys rest newsa oldsa'
         (set_errno EINVAL (log (Call_sigaction_get i (-1)) s'))).
Proof.
  intros H. apply run_thread_resume_child_path in H.
  assert (Hstep : forall i rest newsa oldsa' s',
            fst (sigaction_get i oldsa' s') = Ok (-1, oldsa') ->
            reset_loop sys (i :: rest) newsa oldsa' s' =
            reset_loop sys rest newsa oldsa'
              (set_errno EINVAL (log (Call_sigaction_get i (-1)) s'))).
  { intros i rest newsa oldsa' s' Hq. rewrite reset_loop_cons.
    unfold sigaction_get in Hq.
    destruct (sigtable s' !! i); [discriminate|reflexivity]. }
  destruct (Z.eq_dec (sigemptyset_ret sys) 0) as [He|He].
  - destruct (child_path_loop sys _ _ _ _ _ H He)
      as (evs & tail & Ht & Hf & Hgets & Hsets & Hcase).
    assert (Hqt : queried tail = []).
    { destruct Hcase as [(_ & -> & _) | (_ & _ & _ & [(_ & _ & ->) | (_ & _ & ->)])];
        reflexivity. }
    assert (Hqe : queried ([Call_sigemptyset 0] ++ evs ++ tail) = queried evs).
    { unfold queried in *. cbn. rewrite omap_app, Hqt. apply app_nil_r. }
    assert (Hnt : forall i act ret, Call_sigaction_set i act ret ∉ tail).
    { intros i act ret Hin.
      destruct Hcase as [(_ & -> & _) | (_ & _ & _ & [(_ & _ & ->) | (_ & _ & ->)])];
        repeat (apply elem_of_cons in Hin as [Hin|Hin]; [discriminate|]);
        apply elem_of_nil in Hin; contradiction. }
    assert (Hrc1 : rc <> Halt (UExit 1)).
    { destruct Hcase as [(-> & _) | (_ & _ & _ & [(_ & -> & _) | (_ & -> & _)])];
        discriminate. }
    exists ([Call_sigemptyset 0] ++ evs ++ tail). split; [exact Ht|].
    split; [split; intros; contradiction|].
    split; [intros; contradiction|]. split; [|exact Hstep].
    intros _. rewrite Hqe.
    assert (Hfail : forall i, i ∈ queried evs -> sigtable s !! i = None ->
              Call_sigaction_get i (-1) ∈ [Call_sigemptyset 0] ++ evs ++ tail /\
              forall act ret,
                Call_sigaction_set i act ret ∉ [Call_sigemptyset 0] ++ evs ++ tail).
    { intros i Hi Hnone. split.
      - apply list_elem_of_omap in Hi as (ev & Hev & Hq).
        destruct ev; try discriminate. cbn in Hq. injection Hq as ->.
        destruct (Hgets _ _ Hev) as [[_ [sa Hs]] | [-> _]]; [congruence|].
        cbn. apply elem_of_cons. right. apply elem_of_app. auto.
      - intros act ret Hin. cbn in Hin.
        apply elem_of_cons in Hin as [Hin|Hin]; [discriminate|].
        apply elem_of_app in Hin as [Hin|Hin]; [|exact (Hnt _ _ _ Hin)].
        destruct (Hsets _ _ _ Hin) as [sa Hs]. congruence. }
    destruct Hcase as [(-> & _ & k & Hk & Hfat & Hq) | (Hq & Hnf & _ & Hrc)].
    + rewrite Hq. split.
      { exists (seqZ (0 + (k + 1)) (NSIG sys - (k + 1))).
        rewrite <- seqZ_app by lia. f_equal. lia. }
      split; [intros Hx; contradiction|].
      split; [intros _; exists k; auto|].
      intros i Hi Hnone. rewrite <- Hq in Hi.
      destruct (Hfail i Hi Hnone) as [Hg Hs]. split; [exact Hg|].
      split; [exact Hs|]. intros _. rewrite Hq in Hi.
      apply elem_of_seqZ in Hi. apply elem_of_seqZ.
      destruct Hfat as (sa & e & Hlk & _).
      assert (i <> k) by congruence. lia.
    + rewrite Hq. split; [reflexivity|]. split; [reflexivity|].
      split.
      * intros ->. destruct Hrc as [(_ & Hx & _) | (_ & Hx & _)]; discriminate.
      * intros i Hi Hnone. rewrite <- Hq in Hi.
        destruct (Hfail i Hi Hnone) as [Hg Hs]. split; [exact Hg|].
        split; [exact Hs|]. intros Hlt. rewrite Hq in Hi.
        apply elem_of_seqZ in Hi. apply elem_of_seqZ. lia.
  - destruct (child_path_trace _ _ _ _ _ _ H) as (evs & _ & Hshape).
    destruct Hshape as [(_ & -> & Ht & _) | [(He' & _) | [(He' & _) | (He' & _)]]];
      try contradiction.
    eexists. split; [exact Ht|]. split; [split; auto|].
    split; [reflexivity|]. split; [intros; contradiction|exact Hstep].
Qed.

Lemma query_failure_skipped_witness :
  let sys := linux (Forked 4242) (Reaped 0) 0 in
  let r := run_thread_resume sys 0 (sigmask busy) sa_default busy in
  exists evs, trace (snd r) = trace busy ++ evs /\
    queried evs = seqZ 0 (NSIG sys) /\
    Call_sigaction_get 0 (-1) ∈ evs /\
    1 ∈ queried evs.
Proof.
  cbv zeta.
  destruct (query_failure_skipped (linux (Forked 4242) (Reaped 0) 0)
              (sigmask busy) sa_default busy _ _ (surjective_pairing _))
    as (evs & Ht & _ & _ & Hloop & _).
  destruct (Hloop eq_refl) as (_ & Hall & _ & Hfail).
  assert (Hq : queried evs = seqZ 0 (NSIG (linux (Forked 4242) (Reaped 0) 0))).
  { apply Hall. vm_compute. discriminate. }
  exists evs. split; [exact Ht|]. split; [exact Hq|].
  assert (H0 : 0 ∈ queried evs).
  { rewrite Hq. apply elem_of_seqZ. vm_compute. split; [discriminate|reflexivity]. }
  destruct (Hfail 0 H0) as (Hg & _ & Hnext).
  - vm_compute. reflexivity.
  - split; [exact Hg|]. apply Hnext. reflexivity.
Defined.

(** C3. When the reset loop of the child continuation has completed (the
    child went on to [execve]), then for every signal number [i] of the
    loop: if its action was a handler, it is now the default action, unless
    the attempt to reset it failed with [EINVAL], in which case it is as it
    was; if its action was [SIG_IGN], it is untouched; and it has a handler
    now only if the system reported it unchangeable. *)
Theorem handlers_reset (sys : os) (old : gset Z) (oldsa : sigaction_t)
    (s sc : state) (rc : result Z) :
  run_thread_resume sys 0 old oldsa s = (rc, sc) ->
  rc = Halt (Exec filename new_argv new_envp) \/ rc = Halt (UExit 3) ->
  forall i, 0 <= i < NSIG sys ->
    (forall sa, sigtable s !! i = Some sa -> is_custom (sa_handler sa) = true ->
       sigtable sc !! i = Some (Sigaction SIG_DFL ∅ 0 0) \/
       (sigaction_set_err sys i = Some EINVAL /\ sigtable sc !! i = Some sa)) /\
    (forall sa, sigtable s !! i = Some sa -> sa_handler sa = SIG_IGN ->
       sigtable sc !! i = Some sa) /\
    (forall sa, sigtable sc !! i = Some sa -> is_custom (sa_handler sa) = true ->
       sigaction_set_err sys i = Some EINVAL).
Proof.
  intros H Hrc i Hi. apply run_thread_resume_child_path in H.
  assert (Hin : i ∈ seqZ 0 (NSIG sys)) by (apply elem_of_seqZ; lia).
  revert Hrc. destruct H as [Hne | s1 He Hl | s1 He Hl]; intros Hrc.
  - destruct Hrc; discriminate.
  - destruct Hrc; discriminate.
  - clear Hrc.
    assert (Hsc : forall j, sigtable
              (let s3 := log (Call_execve filename new_argv new_envp)
                           (set_sigmask (old ∖ unblockable sys)
                              (log (Call_pthread_sigmask SIG_SETMASK old) s1)) in
               match execve_err sys with
               | Some e => log (Call__exit 3) (set_errno e s3)
               | None => s3
               end) !! j = sigtable s1 !! j)
      by (intros j; destruct (execve_err sys); reflexivity).
    rewrite !Hsc.
    destruct (reset_loop_table sys _ (Sigaction SIG_DFL ∅ 0 0) _ _ _ eq_refl Hl i)
      as (Hnone & Hkeep & _ & Hreset).
    cbn in Hnone, Hkeep, Hreset. split; [|split].
    + intros sa Hlk Hcu.
      destruct (Hreset sa Hin Hlk Hcu) as [[_ Hd] | [Herr Hsame]]; auto.
    + intros sa Hlk Hign. apply Hkeep; [exact Hlk|].
      unfold is_custom. rewrite Hign. reflexivity.
    + intros sa Hlk Hcu. destruct (sigtable s !! i) as [sa0|] eqn:Hs0.
      * destruct (is_custom (sa_handler sa0)) eqn:Hcu0.
        -- destruct (Hreset sa0 Hin eq_refl Hcu0) as [[_ Hd] | [Herr Hsame]];
             [|exact Herr].
           rewrite Hd in Hlk. injection Hlk as <-. discriminate.
        -- rewrite (Hkeep sa0 eq_refl Hcu0) in Hlk. congruence.
      * rewrite (Hnone eq_refl) in Hlk. discriminate.
Qed.

Lemma handlers_reset_witness :
  let sys := linux (Forked 4242) (Reaped 0) 0 in
  let r := run_thread_resume sys 0 (sigmask busy) sa_default busy in
  sigtable (snd r) !! SIGINT = Some (Sigaction SIG_DFL ∅ 0 0) \/
  (sigaction_set_err sys SIGINT = Some EINVAL /\
   sigtable (snd r) !! SIGINT = Some (Sigaction (SIG_FN 4198400) ∅ 0 0)).
Proof.
  refine (proj1 (handlers_reset (linux (Forked 4242) (Reaped 0) 0)
                  (sigmask busy) sa_default busy _ _ (surjective_pairing _)
                  _ SIGINT _) (Sigaction (SIG_FN 4198400) ∅ 0 0) _ _).
  - left. vm_compute. reflexivity.
  - vm_compute. split; [discriminate|reflexivity].
  - vm_compute. reflexivity.
  - reflexivity.
Defined.

(** C4. In the reset loop of the child, when the attempt to set a handler's
    action to the default fails with error [e]: if [e] is [EINVAL] the signal
    is skipped and the loop goes on with the next one, and if [e] is anything
    else the child terminates at once with reserved code 2.  So the child
    terminates with code 2 if and only if some signal number of the loop has
    a handler whose reset fails with an error other than [EINVAL]. *)
Theorem reset_failure_split (sys : os) :
  (forall i rest newsa oldsa s sa e,
     sigtable s !! i = Some sa -> is_custom (sa_handler sa) = true ->
     sigaction_set_err sys i = Some e ->
     let s2 := set_errno e (log (Call_sigaction_set i newsa (-1))
                              (log (Call_sigaction_get i 0) s)) in
     (e = EINVAL ->
      reset_loop sys (i :: rest) newsa oldsa s = reset_loop sys rest newsa sa s2) /\
     (e <> EINVAL ->
      reset_loop sys (i :: rest) newsa oldsa s =
      (Halt (UExit 2), log (Call__exit 2) s2))) /\
  (forall old oldsa s rc sc,
     run_thread_resume sys 0 old oldsa s = (rc, sc) ->
     sigemptyset_ret sys = 0 ->
     (rc = Halt (UExit 2) <->
      exists i sa e, 0 <= i < NSIG sys /\ sigtable s !! i = Some sa /\
        is_custom (sa_handler sa) = true /\
        sigaction_set_err sys i = Some e /\ e <> EINVAL)).
Proof.
  split.
  - intros i rest newsa oldsa s sa e Hlk Hcu Hse s2. subst s2.
    rewrite reset_loop_cons, Hlk. cbv zeta. rewrite Hcu, Hse. split; intros He.
    + rewrite He. reflexivity.
    + apply Z.eqb_neq in He. rewrite He. reflexivity.
  - intros old oldsa s rc sc H He. apply run_thread_resume_child_path in H.
    destruct H as [Hne | s1 _ Hl | s1 _ Hl].
    + contradiction.
    + split; [intros _|reflexivity].
      destruct (reset_loop_fatal sys _ (Sigaction SIG_DFL ∅ 0 0) _ _ _ _ eq_refl Hl)
        as (i & sa & e & Hi & Hlk & Hcu & Hse & Hne).
      apply elem_of_seqZ in Hi. exists i, sa, e. repeat split; auto; lia.
    + split.
      * destruct (execve_err sys); discriminate.
      * intros (i & sa & e & Hi & Hlk & Hcu & Hse & Hne). exfalso.
        assert (Hin : i ∈ seqZ 0 (NSIG sys)) by (apply elem_of_seqZ; lia).
        destruct (reset_loop_table sys _ (Sigaction SIG_DFL ∅ 0 0) _ _ _ eq_refl Hl i)
          as (_ & _ & _ & Hreset).
        destruct (Hreset sa Hin Hlk Hcu) as [[Hn _] | [Hn _]]; congruence.
Qed.

Lemma reset_failure_split_witness :
  let sys := faulty (linux (Forked 4242) (Reaped 0) 0) SIGINT EFAULT in
  fst (run_thread_resume sys 0 (sigmask busy) sa_default busy) = Halt (UExit 2).
Proof.
  cbv zeta.
  refine (proj2 (proj2 (reset_failure_split
            (faulty (linux (Forked 4242) (Reaped 0) 0) SIGINT EFAULT))
            (sigmask busy) sa_default busy _ _ (surjective_pairing _) _) _).
  - reflexivity.
  - exists SIGINT, (Sigaction (SIG_FN 4198400) ∅ 0 0), EFAULT.
    vm_compute. repeat split; try discriminate; reflexivity.
Defined.

(** C5. After a successful [vfork] and a successful [waitpid] that stored the
    raw status [raw], [run_thread] returns [NULL] having printed exactly one
    line: "Exited" with code [c] when [raw] is the status of a child that
    exited with code [c], 0 <= c <= 255, and "Killed by signal" with [sig]
    when [raw] is the status of a child killed by signal [sig], with or
    without a core dump.  This holds for every raw status by its bits: low
    seven bits zero is an exit, with the code in bits 8 to 15; low seven bits
    between 1 and 126 is a death by that signal. *)
Theorem status_decoded (sys : os) (oldsa : sigaction_t) (s : state)
    (pid : positive) (raw : Z) :
  vfork_ans sys = Forked pid ->
  waitpid_ans sys = Reaped raw ->
  let r := spawn_and_wait sys oldsa s in
  parent_result r = Ok NULL /\
  (forall c, 0 <= c <= 255 -> raw = W_EXITCODE c 0 ->
     reports (trace (parent_final r)) = reports (trace s) ++ [Exited c]) /\
  (forall sig core, 0 < sig < 127 -> raw = W_KILLED sig core ->
     reports (trace (parent_final r)) = reports (trace s) ++ [Signaled sig]) /\
  (raw mod 128 = 0 ->
     reports (trace (parent_final r)) =
     reports (trace s) ++ [Exited ((raw / 256) mod 256)]) /\
  (0 < raw mod 128 < 127 ->
     reports (trace (parent_final r)) =
     reports (trace s) ++ [Signaled (raw mod 128)]).
Proof.
  intros Hv Hw r. subst r.
  pose proof (spawn_and_wait_parent sys oldsa s pid Hv) as Hp. cbv zeta in Hp.
  rewrite Hw in Hp. destruct Hp as (_ & _ & Hres & _ & Htr).
  split; [exact Hres|].
  assert (Hex : raw mod 128 = 0 ->
    reports (trace (parent_final (spawn_and_wait sys oldsa s))) =
    reports (trace s) ++ [Exited ((raw / 256) mod 256)]).
  { intros Hm. rewrite Htr. apply WIFEXITED_mod in Hm. rewrite Hm.
    unfold reports. rewrite !omap_app. cbn. rewrite WEXITSTATUS_mod.
    reflexivity. }
  assert (Hsg : 0 < raw mod 128 < 127 ->
    reports (trace (parent_final (spawn_and_wait sys oldsa s))) =
    reports (trace s) ++ [Signaled (raw mod 128)]).
  { intros Hm. rewrite Htr.
    assert (Hn : WIFEXITED raw = false).
    { destruct (WIFEXITED raw) eqn:E; [|reflexivity].
      apply WIFEXITED_mod in E. lia. }
    apply WIFSIGNALED_mod in Hm. rewrite Hn, Hm.
    unfold reports. rewrite !omap_app. cbn. rewrite WTERMSIG_mod.
    reflexivity. }
  split; [|split; [|split]]; auto.
  - intros c Hc ->. destruct (W_EXITCODE_mod c Hc) as [H0 H1].
    rewrite (Hex H0), H1. reflexivity.
  - intros sig core Hs ->. pose proof (W_KILLED_mod sig core Hs) as H0.
    rewrite Hsg by lia. rewrite H0. reflexivity.
Qed.

Lemma status_decoded_witness :
  let sys := linux (Forked 4242) (Reaped (W_EXITCODE 3 0)) 0 in
  reports (trace (parent_final (spawn_and_wait sys sa_default busy))) =
  reports (trace busy) ++ [Exited 3].
Proof.
  cbv zeta.
  refine (proj1 (proj2 (status_decoded
            (linux (Forked 4242) (Reaped (W_EXITCODE 3 0)) 0) sa_default busy
            4242 (W_EXITCODE 3 0) eq_refl eq_refl)) 3 _ eq_refl).
  lia.
Defined.

(** C6. When [vfork] returns the error indicator, the calling thread makes
    three more calls and no other: it restores [old_signal_mask], reports the
    error with [perror], and terminates the process with [EXIT_FAILURE], which
    is not zero.  There is no child continuation, [vfork] produced no process
    identifier, and [waitpid] is never called. *)
Theorem vfork_failure (sys : os) (oldsa : sigaction_t) (s : state) (e : Z) :
  vfork_ans sys = ForkError e ->
  let r := spawn_and_wait sys oldsa s in
  parent_result r = Halt (Exit EXIT_FAILURE) /\
  EXIT_FAILURE <> 0 /\
  trace (parent_final r) =
    trace s ++
    [Call_sigfillset;
     Call_pthread_sigmask SIG_BLOCK (full_sigset sys);
     Call_vfork (-1);
     Call_pthread_sigmask SIG_SETMASK (sigmask s);
     Call_perror "vfork" e;
     Call_exit EXIT_FAILURE] /\
  sigmask (parent_final r) = sigmask s ∖ unblockable sys /\
  child_run r = None /\
  Forall (fun ev => is_waitpid ev = false)
    (drop (length (trace s)) (trace (parent_final r))).
Proof.
  intros Hv r. subst r. rewrite (spawn_and_wait_error sys oldsa s e Hv). cbn.
  repeat split; try discriminate.
  rewrite drop_app_length. repeat constructor.
Qed.

Lemma vfork_failure_witness :
  parent_result
    (spawn_and_wait (linux (ForkError 11) (Reaped 0) 0) sa_default busy) =
  Halt (Exit EXIT_FAILURE).
Proof.
  exact (proj1 (vfork_failure (linux (ForkError 11) (Reaped 0) 0)
                  sa_default busy 11 eq_refl)).
Defined.

(** C7. After a successful [vfork] that returned [pid], the calling thread
    calls [waitpid] exactly once, on [pid] and with options 0, that is
    blocking.  When that call fails, the thread reports the error with
    [perror] and terminates the process with [EXIT_FAILURE], which is not
    zero, without calling [waitpid] again. *)
Theorem reap_once (sys : os) (oldsa : sigaction_t) (s : state) (pid : positive) :
  vfork_ans sys = Forked pid ->
  let r := spawn_and_wait sys oldsa s in
  (exists evs ret, trace (parent_final r) = trace s ++ evs /\
     filter (fun ev => is_waitpid ev = true) evs =
     [Call_waitpid (Z.pos pid) 0 ret]) /\
  (forall e, waitpid_ans sys = WaitError e ->
     parent_result r = Halt (Exit EXIT_FAILURE) /\
     EXIT_FAILURE <> 0 /\
     trace (parent_final r) =
       trace s ++
       [Call_sigfillset;
        Call_pthread_sigmask SIG_BLOCK (full_sigset sys);
        Call_vfork (Z.pos pid);
        Call_pthread_sigmask SIG_SETMASK (sigmask s);
        Call_waitpid (Z.pos pid) 0 (-1);
        Call_perror "wait" e;
        Call_exit EXIT_FAILURE]).
Proof.
  intros Hv r. subst r.
  pose proof (spawn_and_wait_parent sys oldsa s pid Hv) as Hp. cbv zeta in Hp.
  destruct Hp as (_ & _ & Hp). split.
  - destruct (waitpid_ans sys) as [raw|e].
    + destruct Hp as (_ & _ & ->). eexists. eexists. split; [reflexivity|].
      destruct (WIFEXITED raw); [|destruct (WIFSIGNALED raw)]; reflexivity.
    + destruct Hp as (_ & ->). eexists. eexists. split; reflexivity.
  - intros e He. rewrite He in Hp. destruct Hp as [-> ->].
    repeat split. discriminate.
Qed.

Lemma reap_once_witness :
  parent_result
    (spawn_and_wait (linux (Forked 4242) (WaitError 10) 0) sa_default busy) =
  Halt (Exit EXIT_FAILURE).
Proof.
  exact (proj1 (proj2 (reap_once (linux (Forked 4242) (WaitError 10) 0)
                         sa_default busy 4242 eq_refl) 10 eq_refl)).
Defined.

(** C8. The child continuation never returns to the code after its block:
    it ends in [execve] of the target program or in [_exit] with code 1, 2 or
    3, and none of its calls is one of the calling thread's ([waitpid],
    [perror], [printf], [exit]).  It calls [execve] whenever [sigemptyset]
    succeeds and no reset is fatal, once, with [filename], [new_argv] and
    [new_envp].  It ends by replacing its image exactly when it called
    [execve] and [execve] succeeded, and then that call is its last; it ends
    with code 3 exactly when it called [execve] and [execve] failed, and then
    that call is followed by [_exit (3)] and by nothing else. *)
Theorem exec_is_last (sys : os) (old : gset Z) (oldsa : sigaction_t)
    (s sc : state) (rc : result Z) :
  run_thread_resume sys 0 old oldsa s = (rc, sc) ->
  (rc = Halt (Exec filename new_argv new_envp) \/ rc = Halt (UExit 1) \/
   rc = Halt (UExit 2) \/ rc = Halt (UExit 3)) /\
  exists evs, trace sc = trace s ++ evs /\
    Forall (fun ev => parent_side ev = false) evs /\
    (forall p a e, Call_execve p a e ∈ evs ->
       p = filename /\ a = new_argv /\ e = new_envp) /\
    (sigemptyset_ret sys = 0 ->
     ~ (exists i, 0 <= i < NSIG sys /\ fatal_reset sys (sigtable s) i) ->
     Call_execve filename new_argv new_envp ∈ evs) /\
    (rc = Halt (Exec filename new_argv new_envp) <->
     Call_execve filename new_argv new_envp ∈ evs /\ execve_err sys = None) /\
    (rc = Halt (UExit 3) <->
     Call_execve filename new_argv new_envp ∈ evs /\ execve_err sys <> None) /\
    (Call_execve filename new_argv new_envp ∈ evs ->
     match execve_err sys with
     | None =>
         rc = Halt (Exec filename new_argv new_envp) /\
         exists pre, evs = pre ++ [Call_execve filename new_argv new_envp] /\
           Call_execve filename new_argv new_envp ∉ pre
     | Some _ =>
         rc = Halt (UExit 3) /\
         exists pre, evs = pre ++ [Call_execve filename new_argv new_envp;
                                   Call__exit 3] /\
           Call_execve filename new_argv new_envp ∉ pre
     end).
Proof.
  intros H. apply run_thread_resume_child_path in H.
  destruct (Z.eq_dec (sigemptyset_ret sys) 0) as [He|He].
  - destruct (child_path_loop sys _ _ _ _ _ H He)
      as (evs & tail & Ht & Hf & _ & _ & Hcase).
    pose proof (sigaction_call_not_parent_side evs Hf) as Hnp.
    assert (Hnx : forall p a e, Call_execve p a e ∉ evs)
      by (intros p a e; apply sigaction_call_not_execve, Hf).
    assert (Hpre : forall p a e l,
              Forall (fun ev => forall p a e, ev <> Call_execve p a e) l ->
              Call_execve p a e ∉ Call_sigemptyset 0 :: evs ++ l).
    { intros p a e l Hl Hin.
      apply elem_of_cons in Hin as [Hin|Hin]; [discriminate|].
      apply elem_of_app in Hin as [Hin|Hin]; [exact (Hnx _ _ _ Hin)|].
      rewrite Forall_forall in Hl. exact (Hl _ Hin p a e eq_refl). }
    assert (Hin_tail : forall l,
              Call_execve filename new_argv new_envp ∈ l ->
              Call_execve filename new_argv new_envp ∈
                [Call_sigemptyset 0] ++ evs ++ l).
    { intros l Hl. cbn. apply elem_of_cons. right. apply elem_of_app. auto. }
    assert (Hargs : forall l p a e,
              (forall p a e, Call_execve p a e ∈ l ->
                 p = filename /\ a = new_argv /\ e = new_envp) ->
              Call_execve p a e ∈ [Call_sigemptyset 0] ++ evs ++ l ->
              p = filename /\ a = new_argv /\ e = new_envp).
    { intros l p a e Hl Hin. cbn in Hin.
      apply elem_of_cons in Hin as [Hin|Hin]; [discriminate|].
      apply elem_of_app in Hin as [Hin|Hin]; [destruct (Hnx _ _ _ Hin)|].
      eauto. }
    destruct Hcase as [(-> & -> & k & Hk & Hfat & _) |
      (_ & Hnf & _ & [(Hx & -> & ->) | (Hx & -> & ->)])].
    + (* a fatal reset *)
      assert (Hno : Call_execve filename new_argv new_envp ∉
                [Call_sigemptyset 0] ++ evs ++ [Call__exit 2]).
      { apply Hpre. repeat constructor; discriminate. }
      split; [auto|]. eexists. split; [exact Ht|]. split.
      { cbn. constructor; [reflexivity|]. apply Forall_app.
        split; [exact Hnp|]. repeat constructor. }
      split.
      { intros p a e Hin. exfalso. revert Hin. apply Hpre.
        repeat constructor; discriminate. }
      split; [intros _ Hnf; destruct Hnf; eauto|].
      split; [split; [discriminate|intros [Hin _]; contradiction]|].
      split; [split; [discriminate|intros [Hin _]; contradiction]|].
      intros Hin. contradiction.
    + (* the image is replaced *)
      assert (Hin : Call_execve filename new_argv new_envp ∈
                [Call_sigemptyset 0] ++ evs ++
                [Call_pthread_sigmask SIG_SETMASK old;
                 Call_execve filename new_argv new_envp]).
      { apply Hin_tail. apply elem_of_cons. right. apply elem_of_cons. auto. }
      split; [auto|]. eexists. split; [exact Ht|]. split.
      { cbn. constructor; [reflexivity|]. apply Forall_app.
        split; [exact Hnp|]. repeat constructor. }
      split.
      { intros p a e. apply Hargs. intros p' a' e' Hl.
        apply elem_of_cons in Hl as [Hl|Hl]; [discriminate|].
        apply elem_of_cons in Hl as [Hl|Hl]; [injection Hl as -> -> ->; auto|].
        apply elem_of_nil in Hl. contradiction. }
      split; [intros _ _; exact Hin|].
      split; [split; auto|].
      split; [split; [discriminate|intros [_ Hn]; contradiction]|].
      intros _. rewrite Hx. split; [reflexivity|].
      exists (Call_sigemptyset 0 :: evs ++
              [Call_pthread_sigmask SIG_SETMASK old]).
      split; [cbn; rewrite <- app_assoc; reflexivity|].
      apply Hpre. repeat constructor; discriminate.
    + (* [execve] failed *)
      assert (Hin : Call_execve filename new_argv new_envp ∈
                [Call_sigemptyset 0] ++ evs ++
                [Call_pthread_sigmask SIG_SETMASK old;
                 Call_execve filename new_argv new_envp; Call__exit 3]).
      { apply Hin_tail. apply elem_of_cons. right. apply elem_of_cons. auto. }
      split; [auto 6|]. eexists. split; [exact Ht|]. split.
      { cbn. constructor; [reflexivity|]. apply Forall_app.
        split; [exact Hnp|]. repeat constructor. }
      split.
      { intros p a e. apply Hargs. intros p' a' e' Hl.
        apply elem_of_cons in Hl as [Hl|Hl]; [discriminate|].
        apply elem_of_cons in Hl as [Hl|Hl]; [injection Hl as -> -> ->; auto|].
        apply elem_of_cons in Hl as [Hl|Hl]; [discriminate|].
        apply elem_of_nil in Hl. contradiction. }
      split; [intros _ _; exact Hin|].
      split; [split; [discriminate|intros [_ Hn]; contradiction]|].
      split; [split; auto|].
      intros _. destruct (execve_err sys) as [e|]; [|contradiction].
      split; [reflexivity|].
      exists (Call_sigemptyset 0 :: evs ++
              [Call_pthread_sigmask SIG_SETMASK old]).
      split; [cbn; rewrite <- app_assoc; reflexivity|].
      apply Hpre. repeat constructor; discriminate.
  - destruct (child_path_trace _ _ _ _ _ _ H) as (evs & _ & Hshape).
    destruct Hshape as [(_ & -> & Ht & _) | [(He' & _) | [(He' & _) | (He' & _)]]];
      try contradiction.
    assert (Hno : Call_execve filename new_argv new_envp ∉
              [Call_sigemptyset (sigemptyset_ret sys); Call__exit 1]).
    { intros Hin.
      repeat (apply elem_of_cons in Hin as [Hin|Hin]; [discriminate|]).
      apply elem_of_nil in Hin. contradiction. }
    split; [auto|]. eexists. split; [exact Ht|]. split; [repeat constructor|].
    split.
    { intros p a e Hin.
      repeat (apply elem_of_cons in Hin as [Hin|Hin]; [discriminate|]).
      apply elem_of_nil in Hin. contradiction. }
    split; [intros He'; contradiction|].
    split; [split; [discriminate|intros [Hin _]; contradiction]|].
    split; [split; [discriminate|intros [Hin _]; contradiction]|].
    intros Hin. contradiction.
Qed.

Lemma exec_is_last_witness :
  let sys := linux (Forked 4242) (Reaped 0) 0 in
  let r := run_thread_resume sys 0 (sigmask busy) sa_default busy in
  exists evs, trace (snd r) = trace busy ++ evs /\
    Call_execve filename new_argv new_envp ∈ evs /\
    fst r = Halt (Exec filename new_argv new_envp).
Proof.
  cbv zeta.
  destruct (exec_is_last (linux (Forked 4242) (Reaped 0) 0)
              (sigmask busy) sa_default busy _ _ (surjective_pairing _))
    as (_ & evs & Ht & _ & _ & Hreach & Hexec & _).
  assert (Hin : Call_execve filename new_argv new_envp ∈ evs).
  { apply Hreach; [reflexivity|].
    intros (i & Hi & sa & e & Hlk & Hcu & Hse & Hne).
    change (sigaction_set_err (linux (Forked 4242) (Reaped 0) 0) i)
      with (linux_set_err i) in Hse.
    unfold linux_set_err in Hse. case_bool_decide; congruence. }
  exists evs. split; [exact Ht|]. split; [exact Hin|].
  apply Hexec. split; [exact Hin|reflexivity].
Defined.

(** C9. [main] calls [pthread_create] once.  When that call fails, [main]
    reports the error on [stderr] and terminates the process with
    [EXIT_FAILURE], which is not [EXIT_SUCCESS]; nothing else is called.
    When it succeeds and [run_thread] returns, [main] calls [pthread_join]
    once, after the thread's calls; at that point the global [status] holds
    the raw wait status of the child.  When [pthread_join] fails, [main]
    reports the error on [stderr] and terminates the process with
    [EXIT_FAILURE].  Neither call is made a second time. *)
Theorem thread_failures_fatal (sys : os) (oldsa : sigaction_t) (s : state) :
  let c := pthread_create_ret sys in
  let j := pthread_join_ret sys in
  let m := main sys oldsa s in
  EXIT_FAILURE <> EXIT_SUCCESS /\
  (c <> 0 ->
   fst m = Halt (Exit EXIT_FAILURE) /\
   trace (snd m) =
     trace s ++ [Call_pthread_create c; Call_fprintf_stderr fmt_create c;
                 Call_exit EXIT_FAILURE]) /\
  (c = 0 ->
   forall v s1,
     run_thread sys oldsa (log (Call_pthread_create 0) s) = (Ok v, s1) ->
     (exists evs, trace s1 = trace s ++ [Call_pthread_create 0] ++ evs /\
        Forall (fun ev => is_thread_call ev = false) evs) /\
     (exists pid raw, vfork_ans sys = Forked pid /\
        waitpid_ans sys = Reaped raw /\ status (snd m) = raw) /\
     (j <> 0 ->
      fst m = Halt (Exit EXIT_FAILURE) /\
      trace (snd m) =
        trace s1 ++ [Call_pthread_join j; Call_fprintf_stderr fmt_join j;
                     Call_exit EXIT_FAILURE]) /\
     (j = 0 ->
      fst m = Halt (Exit EXIT_SUCCESS) /\
      trace (snd m) = trace s1 ++ [Call_pthread_join 0; Call_exit EXIT_SUCCESS])).
Proof.
  intros c j m. subst c j m. split; [discriminate|].
  rewrite main_eq. cbv zeta. split.
  - intros Hc. apply Z.eqb_neq in Hc. rewrite Hc. cbn.
    split; [reflexivity|]. rewrite <- !app_assoc. reflexivity.
  - intros Hc v s1 Hrun. rewrite Hc in *. cbn [Z.eqb]. rewrite Hrun.
    destruct (run_thread_cases sys oldsa (log (Call_pthread_create 0) s))
      as (r & s1' & evs & Hrun' & Ht & Hf & Hcase).
    rewrite Hrun in Hrun'. injection Hrun' as <- <-.
    destruct Hcase as [(_ & pid & raw & Hv & Hw & Hst) | (Hr & _)];
      [|discriminate].
    split; [|split; [|split]].
    + exists evs. split; [|exact Hf]. rewrite Ht. cbn.
      rewrite <- app_assoc. reflexivity.
    + exists pid, raw. split; [exact Hv|]. split; [exact Hw|].
      destruct (pthread_join_ret sys =? 0); exact Hst.
    + intros Hj. apply Z.eqb_neq in Hj. rewrite Hj. cbn.
      split; [reflexivity|]. rewrite <- !app_assoc. reflexivity.
    + intros Hj. rewrite Hj. cbn.
      split; [reflexivity|]. rewrite <- !app_assoc. reflexivity.
Qed.

Lemma thread_failures_fatal_witness :
  let sys := linux (Forked 4242) (Reaped 0) 22 in
  fst (main sys sa_default busy) = Halt (Exit EXIT_FAILURE).
Proof.
  cbv zeta.
  refine (proj1 (proj1 (proj2 (proj2 (proj2 (proj2
            (thread_failures_fatal (linux (Forked 4242) (Reaped 0) 22)
               sa_default busy)) eq_refl _ _ (surjective_pairing _)))) _)).
  discriminate.
Defined.

(** C10, as stated, fails.  Thread creation, the spawn and the reap all
    succeed, [run_thread] returns [NULL], and [pthread_join] fails: the
    program terminates with [EXIT_FAILURE]. *)
Lemma exit_success_counterexample :
  let sys := linux (Forked 4242) (Reaped 0) 22 in
  pthread_create_ret sys = 0 /\
  vfork_ans sys = Forked 4242 /\
  waitpid_ans sys = Reaped 0 /\
  fst (run_thread sys sa_default (log (Call_pthread_create 0) busy)) = Ok NULL /\
  fst (main sys sa_default busy) = Halt (Exit EXIT_FAILURE) /\
  EXIT_FAILURE <> EXIT_SUCCESS.
Proof.
  cbv zeta. repeat split; try reflexivity; try discriminate.
  all: vm_compute; reflexivity.
Qed.

(** C10, amended.  Whenever thread creation, the spawn, the reap and the
    join all succeed, the program terminates with [EXIT_SUCCESS] whatever the
    raw wait status of the child is: [run_thread] returns [NULL], and the
    last call of the program is [exit (EXIT_SUCCESS)]. *)
Theorem exit_code_ignores_status (sys : os) (oldsa : sigaction_t) (s : state)
    (pid : positive) (raw : Z) :
  pthread_create_ret sys = 0 ->
  vfork_ans sys = Forked pid ->
  waitpid_ans sys = Reaped raw ->
  pthread_join_ret sys = 0 ->
  fst (run_thread sys oldsa (log (Call_pthread_create 0) s)) = Ok NULL /\
  fst (main sys oldsa s) = Halt (Exit EXIT_SUCCESS) /\
  last (trace (snd (main sys oldsa s))) = Some (Call_exit EXIT_SUCCESS).
Proof.
  intros Hc Hv Hw Hj. rewrite main_eq. cbv zeta. rewrite Hc, Hj. cbn [Z.eqb].
  destruct (run_thread_cases sys oldsa (log (Call_pthread_create 0) s))
    as (r & s1 & evs & Hrun & _ & _ & Hcase).
  rewrite Hrun.
  destruct Hcase as [(-> & _) | (_ & [[e He] | [e He]])]; [|congruence..].
  cbn. split; [reflexivity|]. split; [reflexivity|]. apply last_snoc.
Qed.

Lemma exit_code_ignores_status_witness :
  let sys := linux (Forked 4242) (Reaped (W_KILLED SIGKILL false)) 0 in
  fst (main sys sa_default busy) = Halt (Exit EXIT_SUCCESS).
Proof.
  exact (proj1 (proj2 (exit_code_ignores_status
           (linux (Forked 4242) (Reaped (W_KILLED SIGKILL false)) 0)
           sa_default busy 4242 (W_KILLED SIGKILL false)
           eq_refl eq_refl eq_refl eq_refl))).
Defined.

(** * Further properties of [run_thread] and [main] *)

(** ** Statements *)

(** X1. Until its reset loop has completed the child keeps the mask [vfork]
    was called with: a child that ends with code 1 or 2 has made no call of
    [pthread_sigmask], and every signal of the set [sigfillset] stored that
    can be blocked is still blocked when it ends. *)
Theorem child_fails_blocked (sys : os) (oldsa : sigaction_t) (s sc : state)
    (rc : result Z) :
  child_run (spawn_and_wait sys oldsa s) = Some (rc, sc) ->
  rc = Halt (UExit 1) \/ rc = Halt (UExit 2) ->
  sigmask sc = (sigmask s ∪ full_sigset sys) ∖ unblockable sys /\
  Forall (fun ev => is_pthread_sigmask ev = false) (trace sc) /\
  forall sg, sg ∈ full_sigset sys -> sg ∉ unblockable sys -> sg ∈ sigmask sc.
Proof.
  intros Hc Hrc.
  destruct (vfork_ans sys) as [pid|e] eqn:Hv.
  2: { rewrite (spawn_and_wait_error sys oldsa s e Hv) in Hc. discriminate. }
  destruct (spawn_and_wait_forked sys oldsa s pid Hv) as (rc' & sc' & Hpath & Heq).
  rewrite Heq in Hc. destruct (run_thread_resume _ _ _ _ _) as [rp sp].
  cbn in Hc. injection Hc as <- <-.
  destruct (child_path_trace _ _ _ _ _ _ Hpath) as (evs & Hf & Hshape).
  cbn in Hshape.
  assert (Hns : Forall (fun ev => is_pthread_sigmask ev = false) evs).
  { eapply Forall_impl; [exact Hf|].
    intros []; cbn; intros H; try reflexivity; destruct H. }
  assert (Hgoal : sigmask sc' = (sigmask s ∪ full_sigset sys) ∖ unblockable sys /\
                  Forall (fun ev => is_pthread_sigmask ev = false) (trace sc')).
  { destruct Hshape as [(_ & _ & Ht & Hm) | [(_ & _ & Ht & _ & Hm) |
      [(_ & _ & -> & _) | (_ & _ & -> & _)]]].
    - split; [exact Hm|]. rewrite Ht. repeat constructor.
    - split; [exact Hm|]. rewrite Ht. cbn. constructor; [reflexivity|].
      apply Forall_app. split; [exact Hns|]. repeat constructor.
    - destruct Hrc; discriminate.
    - destruct Hrc; discriminate. }
  destruct Hgoal as [Hm Hall]. split; [exact Hm|]. split; [exact Hall|].
  intros sg Hin Hnot. rewrite Hm. apply elem_of_difference. split; [|exact Hnot].
  apply elem_of_union. right. exact Hin.
Qed.

Lemma child_fails_blocked_witness :
  let sys := faulty (linux (Forked 4242) (Reaped 512) 0) SIGINT EFAULT in
  exists rc sc, child_run (spawn_and_wait sys sa_default busy) = Some (rc, sc) /\
    sigmask sc = (sigmask busy ∪ full_sigset sys) ∖ unblockable sys.
Proof.
  cbv zeta.
  destruct (child_run (spawn_and_wait
              (faulty (linux (Forked 4242) (Reaped 512) 0) SIGINT EFAULT)
              sa_default busy)) as [[rc sc]|] eqn:E.
  - exists rc, sc. split; [reflexivity|].
    refine (proj1 (child_fails_blocked _ _ _ _ _ E _)).
    right. vm_compute in E. injection E as <- _. reflexivity.
  - vm_compute in E. discriminate.
Defined.

(** X2. On every path the calling thread's first four calls are
    [sigfillset], [pthread_sigmask (SIG_BLOCK, full set)], [vfork] and
    [pthread_sigmask (SIG_SETMASK, old mask)]: the mask is blocked by the call
    just before [vfork] and restored by the call just after, and
    [pthread_sigmask] is not called again. *)
Theorem mask_calls_bracket_vfork (sys : os) (oldsa : sigaction_t) (s : state) :
  exists rest,
    trace (parent_final (spawn_and_wait sys oldsa s)) =
    trace s ++
    [Call_sigfillset;
     Call_pthread_sigmask SIG_BLOCK (full_sigset sys);
     Call_vfork (match vfork_ans sys with
                 | Forked pid => Z.pos pid
                 | ForkError _ => -1
                 end);
     Call_pthread_sigmask SIG_SETMASK (sigmask s)] ++ rest /\
    Forall (fun ev => is_pthread_sigmask ev = false) rest.
Proof.
  destruct (vfork_ans sys) as [pid|e] eqn:Hv.
  - pose proof (spawn_and_wait_parent sys oldsa s pid Hv) as Hp. cbv zeta in Hp.
    destruct Hp as (_ & _ & Hp).
    destruct (waitpid_ans sys) as [raw|e].
    + destruct Hp as (_ & _ & ->). eexists. split; [reflexivity|].
      destruct (WIFEXITED raw); [|destruct (WIFSIGNALED raw)];
        repeat constructor.
    + destruct Hp as (_ & ->). eexists. split; [reflexivity|].
      repeat constructor.
  - rewrite (spawn_and_wait_error sys oldsa s e Hv). cbn.
    eexists. split; [reflexivity|]. repeat constructor.
Qed.

(** X3. The child sets a signal action only with the template (default
    action, empty mask, no flags), only for a signal number of the loop whose
    action was a handler when the child began, and at most once per signal
    number, in increasing order. *)
Theorem resets_only_handlers (sys : os) (old : gset Z) (oldsa : sigaction_t)
    (s sc : state) (rc : result Z) :
  run_thread_resume sys 0 old oldsa s = (rc, sc) ->
  exists evs, trace sc = trace s ++ evs /\
    resets evs `sublist_of` seqZ 0 (NSIG sys) /\
    NoDup (resets evs) /\
    forall sig act ret, Call_sigaction_set sig act ret ∈ evs ->
      act = Sigaction SIG_DFL ∅ 0 0 /\
      0 <= sig < NSIG sys /\
      exists sa, sigtable s !! sig = Some sa /\ is_custom (sa_handler sa) = true.
Proof.
  intros H. apply run_thread_resume_child_path in H.
  destruct (child_path_sets sys _ _ _ _ _ H) as (evs & Htr & Hsub & Hsets).
  exists evs. split; [exact Htr|]. split; [exact Hsub|].
  split; [exact (sublist_NoDup _ _ (NoDup_seqZ _ _) Hsub)|].
  intros sig act ret Hin. destruct (Hsets _ _ _ Hin) as [-> Hsa].
  split; [reflexivity|]. split; [|exact Hsa].
  assert (Hr : sig ∈ resets evs).
  { apply list_elem_of_omap. eexists. split; [exact Hin|reflexivity]. }
  apply (sublist_subseteq _ _ Hsub) in Hr. apply elem_of_seqZ in Hr. lia.
Qed.

Lemma resets_only_handlers_witness :
  let sys := linux (Forked 4242) (Reaped 0) 0 in
  exists evs,
    trace (snd (run_thread_resume sys 0 (sigmask busy) sa_default busy)) =
    trace busy ++ evs /\
    NoDup (resets evs).
Proof.
  destruct (resets_only_handlers (linux (Forked 4242) (Reaped 0) 0)
              (sigmask busy) sa_default busy _ _ (surjective_pairing _))
    as (evs & Htr & _ & Hnd & _).
  exists evs. split; [exact Htr|exact Hnd].
Defined.

(** X4. Whatever way the child ends, every entry of its table of signal
    actions is as it was when the child began, or was a handler inside the
    range of the loop and is now the default action.  So the child neither
    adds nor removes a signal, leaves every signal number outside the range of
    the loop alone, and leaves every action that is not a handler alone. *)
Theorem child_table_frame (sys : os) (old : gset Z) (oldsa : sigaction_t)
    (s sc : state) (rc : result Z) :
  run_thread_resume sys 0 old oldsa s = (rc, sc) ->
  dom (sigtable sc) = dom (sigtable s) /\
  forall i : Z,
    (sigtable sc !! i = sigtable s !! i \/
     (exists sa, sigtable s !! i = Some sa /\ is_custom (sa_handler sa) = true /\
        sigtable sc !! i = Some (Sigaction SIG_DFL ∅ 0 0))) /\
    (i < 0 \/ NSIG sys <= i -> sigtable sc !! i = sigtable s !! i) /\
    (forall sa, sigtable s !! i = Some sa -> is_custom (sa_handler sa) = false ->
       sigtable sc !! i = Some sa).
Proof.
  intros H. apply run_thread_resume_child_path in H.
  pose proof (child_path_table sys _ _ _ _ _ H) as Ht. split.
  - apply set_eq. intros i. rewrite !elem_of_dom.
    destruct (Ht i) as [-> | (_ & sa & -> & _ & _ & ->)]; [reflexivity|].
    split; intros _; eexists; reflexivity.
  - intros i. destruct (Ht i) as [Heq | (Hi & sa & Hlk & Hcu & _ & Hnew)].
    + split; [left; exact Heq|]. split; [intros _; exact Heq|].
      intros sa Hlk _. rewrite Heq. exact Hlk.
    + split; [right; exists sa; auto|]. split; [intros Hout; lia|].
      intros sa' Hlk' Hcu'. congruence.
Qed.

Lemma child_table_frame_witness :
  let sys := faulty (linux (Forked 4242) (Reaped 512) 0) SIGTERM EFAULT in
  dom (sigtable (snd (run_thread_resume sys 0 (sigmask busy) sa_default busy))) =
  dom (sigtable busy).
Proof.
  exact (proj1 (child_table_frame
                  (faulty (linux (Forked 4242) (Reaped 512) 0) SIGTERM EFAULT)
                  (sigmask busy) sa_default busy _ _ (surjective_pairing _))).
Defined.

(** X5. The global [status] is written by a successful [waitpid] and by
    nothing else: after [run_thread] it holds the raw wait status when a child
    was created and reaped, and its previous value when [vfork] or [waitpid]
    failed; the child, which runs in the caller's memory, never writes it. *)
Theorem status_written_by_waitpid (sys : os) (oldsa : sigaction_t) (s : state) :
  let r := spawn_and_wait sys oldsa s in
  status (parent_final r) =
    match vfork_ans sys, waitpid_ans sys with
    | Forked _, Reaped raw => raw
    | _, _ => status s
    end /\
  forall rc sc, child_run r = Some (rc, sc) -> status sc = status s.
Proof.
  intros r. subst r. destruct (vfork_ans sys) as [pid|e] eqn:Hv.
  - destruct (spawn_and_wait_forked sys oldsa s pid Hv)
      as (rc' & sc' & Hpath & ->).
    apply child_path_status in Hpath. cbn in Hpath.
    rewrite run_thread_resume_parent. cbv zeta.
    destruct (waitpid_ans sys) as [raw|e]; cbn.
    + split.
      * destruct (WIFEXITED raw); [|destruct (WIFSIGNALED raw)]; reflexivity.
      * intros rc sc Hc. injection Hc as <- <-. exact Hpath.
    + split; [exact Hpath|].
      intros rc sc Hc. injection Hc as <- <-. exact Hpath.
  - rewrite (spawn_and_wait_error sys oldsa s e Hv). cbn.
    split; [reflexivity|]. intros rc sc Hc. discriminate.
Qed.

(** X6. What decides how the child ends.  It replaces its image exactly
    when [sigemptyset] succeeds, no handler of the loop's range has a fatal
    reset, and [execve] succeeds; it ends with code 3 exactly when the first
    two hold and [execve] fails. *)
Theorem child_outcome_table (sys : os) (old : gset Z) (oldsa : sigaction_t)
    (s sc : state) (rc : result Z) :
  run_thread_resume sys 0 old oldsa s = (rc, sc) ->
  let fatal := exists i, 0 <= i < NSIG sys /\ fatal_reset sys (sigtable s) i in
  (rc = Halt (Exec filename new_argv new_envp) <->
   sigemptyset_ret sys = 0 /\ ~ fatal /\ execve_err sys = None) /\
  (rc = Halt (UExit 3) <->
   sigemptyset_ret sys = 0 /\ ~ fatal /\ execve_err sys <> None).
Proof.
  intros H fatal. subst fatal. apply run_thread_resume_child_path in H.
  destruct H as [Hne | s1 He Hl | s1 He Hl].
  - split; split; try discriminate; intros (He & _); contradiction.
  - assert (Hf : exists i, 0 <= i < NSIG sys /\ fatal_reset sys (sigtable s) i).
    { destruct (reset_loop_fatal sys _ (Sigaction SIG_DFL ∅ 0 0) _ _ _ _ eq_refl Hl)
        as (i & sa & e & Hi & Hlk & Hcu & Hse & Hn).
      apply elem_of_seqZ in Hi. exists i. split; [lia|]. exists sa, e. auto. }
    split; split; try discriminate; intros (_ & Hnf & _); contradiction.
  - assert (Hnf : ~ exists i, 0 <= i < NSIG sys /\ fatal_reset sys (sigtable s) i).
    { intros (i & Hi & sa & e & Hlk & Hcu & Hse & Hn).
      assert (Hin : i ∈ seqZ 0 (NSIG sys)) by (apply elem_of_seqZ; lia).
      destruct (reset_loop_table sys _ (Sigaction SIG_DFL ∅ 0 0) _ _ _ eq_refl Hl i)
        as (_ & _ & _ & Hreset).
      destruct (Hreset sa Hin Hlk Hcu) as [[Hx _] | [Hx _]]; congruence. }
    destruct (execve_err sys) as [e|]; split; split;
      try discriminate; try (intros _; repeat split; auto; discriminate);
      try reflexivity.
    + intros (_ & _ & Hx). discriminate.
    + intros (_ & _ & Hx). contradiction.
Qed.

Lemma child_outcome_table_witness :
  let sys := linux (Forked 4242) (Reaped 0) 0 in
  fst (run_thread_resume sys 0 (sigmask busy) sa_default busy) =
    Halt (Exec filename new_argv new_envp) <->
  sigemptyset_ret sys = 0 /\
  ~ (exists i, 0 <= i < NSIG sys /\ fatal_reset sys (sigtable busy) i) /\
  execve_err sys = None.
Proof.
  exact (proj1 (child_outcome_table (linux (Forked 4242) (Reaped 0) 0)
                  (sigmask busy) sa_default busy _ _ (surjective_pairing _))).
Defined.

(** X7. [main] never returns: it ends the process with [EXIT_SUCCESS] or
    [EXIT_FAILURE].  It is [EXIT_SUCCESS] exactly when [pthread_create],
    [vfork], [waitpid] and [pthread_join] all succeed. *)
Theorem main_exit_code (sys : os) (oldsa : sigaction_t) (s : state) :
  (fst (main sys oldsa s) = Halt (Exit EXIT_SUCCESS) \/
   fst (main sys oldsa s) = Halt (Exit EXIT_FAILURE)) /\
  (fst (main sys oldsa s) = Halt (Exit EXIT_SUCCESS) <->
   pthread_create_ret sys = 0 /\
   (exists pid, vfork_ans sys = Forked pid) /\
   (exists raw, waitpid_ans sys = Reaped raw) /\
   pthread_join_ret sys = 0).
Proof.
  rewrite main_eq. cbv zeta.
  destruct (pthread_create_ret sys =? 0) eqn:Hc.
  2: { apply Z.eqb_neq in Hc. cbn. split; [right; reflexivity|].
       split; [discriminate|]. intros (H0 & _). contradiction. }
  apply Z.eqb_eq in Hc. rewrite Hc.
  destruct (run_thread_cases sys oldsa (log (Call_pthread_create 0) s))
    as (r & s1 & evs & Hrun & _ & _ & Hcase). rewrite Hrun.
  destruct Hcase as [(-> & pid & raw & Hv & Hw & _) | (-> & Hfail)].
  - destruct (pthread_join_ret sys =? 0) eqn:Hj; cbn.
    + apply Z.eqb_eq in Hj. split; [left; reflexivity|].
      split; [intros _; eauto 10|reflexivity].
    + apply Z.eqb_neq in Hj. split; [right; reflexivity|].
      split; [discriminate|]. intros (_ & _ & _ & H0). contradiction.
  - cbn. split; [right; reflexivity|]. split; [discriminate|].
    intros (_ & [pid Hv] & [raw Hw] & _).
    destruct Hfail as [[e He] | [e He]]; congruence.
Qed.

(** X8. After a child was created and reaped, [run_thread] prints at most
    one line.  It prints none exactly when the low seven bits of the raw
    status are all ones (a status that is neither an exit nor a death by
    signal); a printed exit code is between 0 and 255 and a printed signal
    number between 1 and 126. *)
Theorem decode_prints_at_most_one (sys : os) (oldsa : sigaction_t) (s : state)
    (pid : positive) (raw : Z) :
  vfork_ans sys = Forked pid ->
  waitpid_ans sys = Reaped raw ->
  exists out,
    reports (trace (parent_final (spawn_and_wait sys oldsa s))) =
    reports (trace s) ++ out /\
    (out = [] <-> raw mod 128 = 127) /\
    (forall c, Exited c ∈ out -> out = [Exited c] /\ 0 <= c <= 255) /\
    (forall sg, Signaled sg ∈ out -> out = [Signaled sg] /\ 0 < sg < 127).
Proof.
  intros Hv Hw.
  pose proof (spawn_and_wait_parent sys oldsa s pid Hv) as Hp. cbv zeta in Hp.
  rewrite Hw in Hp. destruct Hp as (_ & _ & _ & _ & Htr).
  pose proof (Z.mod_pos_bound raw 128 ltac:(lia)) as Hb.
  pose proof (Z.mod_pos_bound (raw / 256) 256 ltac:(lia)) as Hb2.
  pose proof (WIFEXITED_mod raw) as He. pose proof (WIFSIGNALED_mod raw) as Hs.
  rewrite Htr. unfold reports. rewrite !omap_app. cbn.
  destruct (WIFEXITED raw) eqn:E1; [|destruct (WIFSIGNALED raw) eqn:E2]; cbn;
    eexists; (split; [reflexivity|]).
  - assert (raw mod 128 = 0) by (apply He; reflexivity).
    split; [split; [discriminate|lia]|]. split.
    + intros c Hin. apply list_elem_of_singleton in Hin. injection Hin as ->.
      split; [reflexivity|]. rewrite WEXITSTATUS_mod. lia.
    + intros sg Hin. apply list_elem_of_singleton in Hin. discriminate.
  - assert (0 < raw mod 128 < 127) by (apply Hs; reflexivity).
    split; [split; [discriminate|lia]|]. split.
    + intros c Hin. apply list_elem_of_singleton in Hin. discriminate.
    + intros sg Hin. apply list_elem_of_singleton in Hin. injection Hin as ->.
      split; [reflexivity|]. rewrite WTERMSIG_mod. lia.
  - assert (raw mod 128 = 127).
    { destruct (Z.eq_dec (raw mod 128) 0) as [H0|H0];
        [apply He in H0; discriminate|].
      destruct (Z.eq_dec (raw mod 128) 127) as [H1|H1]; [exact H1|].
      assert (Hx : 0 < raw mod 128 < 127) by lia.
      apply Hs in Hx. discriminate. }
    split; [split; auto|]. split; intros x Hin;
      apply elem_of_nil in Hin; contradiction.
Qed.

Lemma decode_prints_at_most_one_witness :
  let sys := linux (Forked 4242) (Reaped 4991) 0 in
  exists out,
    reports (trace (parent_final (spawn_and_wait sys sa_default busy))) =
    reports (trace busy) ++ out /\
    (out = [] <-> 4991 mod 128 = 127).
Proof.
  destruct (decode_prints_at_most_one (linux (Forked 4242) (Reaped 4991) 0)
              sa_default busy 4242 4991 eq_refl eq_refl)
    as (out & Hr & Hn & _).
  exists out. split; [exact Hr|exact Hn].
Defined.

(** X9. The reset loop is idempotent: run again on the state a completed
    run left, with a template that is not a handler, it completes again and
    leaves the table of signal actions as it found it. *)
Theorem reset_loop_idempotent (sys : os) (sigs : list Z)
    (newsa oldsa oldsa' : sigaction_t) (s s1 : state) :
  is_custom (sa_handler newsa) = false ->
  reset_loop sys sigs newsa oldsa s = (Ok tt, s1) ->
  exists s2, reset_loop sys sigs newsa oldsa' s1 = (Ok tt, s2) /\
    sigtable s2 = sigtable s1.
Proof.
  intros Hnew H1.
  assert (Hleft : forall i sa, sigtable s1 !! i = Some sa ->
            is_custom (sa_handler sa) = true -> i ∈ sigs ->
            sigaction_set_err sys i = Some EINVAL).
  { intros i sa Hlk Hcu Hin.
    destruct (reset_loop_table sys sigs newsa oldsa s s1 Hnew H1 i)
      as (Hnone & Hkeep & _ & Hreset).
    destruct (sigtable s !! i) as [sa0|] eqn:Hs0.
    - destruct (is_custom (sa_handler sa0)) eqn:Hcu0.
      + destruct (Hreset sa0 Hin eq_refl Hcu0) as [[_ Hd] | [Herr _]];
          [congruence|exact Herr].
      + rewrite (Hkeep sa0 eq_refl Hcu0) in Hlk. congruence.
    - rewrite (Hnone eq_refl) in Hlk. discriminate. }
  destruct (reset_loop sys sigs newsa oldsa' s1) as [[[]|h] s2] eqn:H2.
  - exists s2. split; [reflexivity|]. apply map_eq. intros i.
    destruct (reset_loop_preserves sys sigs newsa oldsa' s1 s2 _ H2 i)
      as [Heq | (Hin & sa & Hlk & Hcu & Hse & _)]; [exact Heq|].
    rewrite (Hleft i sa Hlk Hcu Hin) in Hse. discriminate.
  - exfalso.
    destruct (reset_loop_fatal sys sigs newsa oldsa' s1 s2 h Hnew H2)
      as (i & sa & e & Hin & Hlk & Hcu & Hse & Hne).
    rewrite (Hleft i sa Hlk Hcu Hin) in Hse. congruence.
Qed.

Lemma reset_loop_idempotent_witness :
  let sys := linux (Forked 4242) (Reaped 0) 0 in
  let s1 := snd (reset_loop sys (seqZ 0 65) sa_default sa_default busy) in
  exists s2, reset_loop sys (seqZ 0 65) sa_default sa_default s1 = (Ok tt, s2) /\
    sigtable s2 = sigtable s1.
Proof.
  cbv zeta.
  refine (reset_loop_idempotent (linux (Forked 4242) (Reaped 0) 0) (seqZ 0 65)
            sa_default sa_default sa_default busy _ eq_refl _).
  destruct (reset_loop _ _ _ _ busy) as [r s1] eqn:E. cbn.
  f_equal. vm_compute in E. injection E as <- _. reflexivity.
Defined.

(** X10. The calling thread makes none of the child's calls: on no path
    does it query or set a signal action, call [sigemptyset], [execve] or
    [_exit]. *)
Theorem parent_makes_no_child_call (sys : os) (oldsa : sigaction_t) (s : state) :
  exists evs,
    trace (parent_final (spawn_and_wait sys oldsa s)) = trace s ++ evs /\
    Forall (fun ev => child_side ev = false) evs.
Proof.
  destruct (vfork_ans sys) as [pid|e] eqn:Hv.
  - pose proof (spawn_and_wait_parent sys oldsa s pid Hv) as Hp. cbv zeta in Hp.
    destruct Hp as (_ & _ & Hp).
    destruct (waitpid_ans sys) as [raw|e].
    + destruct Hp as (_ & _ & ->). eexists. split; [reflexivity|].
      destruct (WIFEXITED raw); [|destruct (WIFSIGNALED raw)];
        repeat constructor.
    + destruct Hp as (_ & ->). eexists. split; [reflexivity|].
      repeat constructor.
  - rewrite (spawn_and_wait_error sys oldsa s e Hv). cbn.
    eexists. split; [reflexivity|]. repeat constructor.
Qed.

(** X11. A child that ends with code 2 stopped at the first signal number
    of the loop with a fatal reset: it queried the signal numbers from 0 up to
    that one and no later one, and no earlier signal number has a fatal
    reset. *)
Theorem stops_at_first_fatal (sys : os) (old : gset Z) (oldsa : sigaction_t)
    (s sc : state) (rc : result Z) :
  run_thread_resume sys 0 old oldsa s = (rc, sc) ->
  rc = Halt (UExit 2) ->
  exists i evs,
    0 <= i < NSIG sys /\
    fatal_reset sys (sigtable s) i /\
    (forall j, 0 <= j < i -> ~ fatal_reset sys (sigtable s) j) /\
    trace sc = trace s ++ [Call_sigemptyset 0] ++ evs ++ [Call__exit 2] /\
    queried evs = seqZ 0 (i + 1).
Proof.
  intros H Hrc. apply run_thread_resume_child_path in H.
  revert Hrc. destruct H as [Hne | s1 He Hl | s1 He Hl]; intros Hrc.
  - discriminate.
  - destruct (reset_loop_first_fatal sys _ (Sigaction SIG_DFL ∅ 0 0) _ _ _ _
                eq_refl Hl)
      as (pre & i & post & evs & Hsplit & Htr & Hq & Hfat & Hpre).
    apply seqZ_split in Hsplit as [-> Hi]. cbn in Htr, Hfat, Hpre.
    rewrite Z.sub_0_r in *.
    exists i, evs. split; [lia|]. split; [exact Hfat|]. split.
    + intros j Hj. apply Hpre. apply elem_of_seqZ. lia.
    + split; [rewrite Htr, <- !app_assoc; reflexivity|].
      rewrite Hq. rewrite (seqZ_app 0 i 1) by lia. reflexivity.
  - destruct (execve_err sys); discriminate.
Qed.

Lemma stops_at_first_fatal_witness :
  let sys := faulty (linux (Forked 4242) (Reaped 512) 0) SIGTERM EFAULT in
  exists i evs,
    fatal_reset sys (sigtable busy) i /\
    trace (snd (run_thread_resume sys 0 (sigmask busy) sa_default busy)) =
    trace busy ++ [Call_sigemptyset 0] ++ evs ++ [Call__exit 2] /\
    queried evs = seqZ 0 (i + 1).
Proof.
  cbv zeta.
  destruct (stops_at_first_fatal
              (faulty (linux (Forked 4242) (Reaped 512) 0) SIGTERM EFAULT)
              (sigmask busy) sa_default busy _ _ (surjective_pairing _))
    as (i & evs & _ & Hf & _ & Ht & Hq).
  - vm_compute. reflexivity.
  - exists i, evs. auto.
Defined.
